(** * Tomo chatbot: relay handlers, history persistence and title heuristic

    A shallow embedding of the serverless handlers of the repository:
    - the xAI relay with Supabase persistence ([Relay], from the chat handler
      that defines [languageModels], [saveToSupabase], [generateChatTitle]);
    - the Groq relay of [src/api/chat.js] ([GroqRelay]);
    - the two chat-history handlers ([History] for
      [src/New api/chat-history.js], [LegacyHistory] for
      [src/api/chat-history.js]).

    JavaScript strings are sequences of UTF-16 code units, JSON values are a
    small inductive type, the persistence store is a pair of tables threaded
    through the handlers together with the trace of the calls issued to it. *)

From Stdlib Require Import String Ascii ZArith NArith Bool Arith Lia List.
Import ListNotations.

Set Implicit Arguments.

(** ** JavaScript strings *)

Definition jsstring := list N.

Definition js (s : string) : jsstring :=
  map N_of_ascii (list_ascii_of_string s).

Fixpoint jsstring_eqb (a b : jsstring) : bool :=
  match a, b with
  | [], [] => true
  | x :: a', y :: b' => N.eqb x y && jsstring_eqb a' b'
  | _, _ => false
  end.

(** [WhiteSpace] and [LineTerminator] code units of ECMAScript: the class
    matched by [\s] in a regular expression and removed by
    [String.prototype.trim]. *)
Definition is_js_space (c : N) : bool :=
  (((9 <=? c) && (c <=? 13)) || (c =? 32) || (c =? 160) || (c =? 5760)
   || ((8192 <=? c) && (c <=? 8202)) || (c =? 8232) || (c =? 8233)
   || (c =? 8239) || (c =? 8287) || (c =? 12288) || (c =? 65279))%N.

Definition nonempty (w : jsstring) : bool :=
  match w with [] => false | _ => true end.

(** ** The title heuristic, [generateChatTitle] *)

(** The character class of [/[#*`_~\[\]()]/g]. *)
Definition is_markup (c : N) : bool :=
  existsb (N.eqb c) (js "#*`_~[]()").

(** [content.replace(/[#*`_~\[\]()]/g, '')] *)
Definition strip_markup (s : jsstring) : jsstring :=
  filter (fun c => negb (is_markup c)) s.

Fixpoint trimStart (s : jsstring) : jsstring :=
  match s with
  | [] => []
  | c :: s' => if is_js_space c then trimStart s' else s
  end.

Fixpoint trimEnd (s : jsstring) : jsstring :=
  match s with
  | [] => []
  | c :: s' =>
      match trimEnd s' with
      | [] => if is_js_space c then [] else [c]
      | t => c :: t
      end
  end.

(** [String.prototype.trim] *)
Definition trim (s : jsstring) : jsstring := trimEnd (trimStart s).

(** [s.split(/\s+/)]: the pieces between the maximal whitespace runs; a run
    at either end of the string leaves an empty piece there, and the empty
    string splits into one empty piece.  [in_run] tells that the code unit
    before [s] belongs to a separator already consumed. *)
Fixpoint split_ws (in_run : bool) (s : jsstring) : list jsstring :=
  match s with
  | [] => [[]]
  | c :: s' =>
      if is_js_space c then
        if in_run then split_ws true s' else [] :: split_ws true s'
      else
        match split_ws false s' with
        | w :: ws => (c :: w) :: ws
        | [] => [[c]]
        end
  end.

(** [words.join(' ')] *)
Fixpoint join_space (ws : list jsstring) : jsstring :=
  match ws with
  | [] => []
  | [w] => w
  | w :: ws' => w ++ 32%N :: join_space ws'
  end.

(** [s.substring(0, n)] *)
Definition substring0 (n : nat) (s : jsstring) : jsstring := firstn n s.

Definition New_chat : jsstring := js "New chat".

Definition generateChatTitle (content : jsstring) : jsstring :=
  let cleanContent := trim (strip_markup content) in
  let words := filter (fun word => 2 <? length word) (split_ws false cleanContent) in
  let titleWords := firstn (Nat.min 3 (length words)) words in
  let title := join_space titleWords in
  let title := if 20 <? length title then substring0 17 title ++ js "..." else title in
  match title with
  | [] => New_chat
  | _ => title
  end.

(** *** The heuristic as the specification words it *)

(** The words of a text: its maximal runs of non-whitespace code units. *)
Fixpoint ws_words (s : jsstring) : list jsstring :=
  match s with
  | [] => []
  | c :: s' =>
      if is_js_space c then ws_words s'
      else
        match s' with
        | [] => [[c]]
        | c' :: _ =>
            if is_js_space c' then [c] :: ws_words s'
            else
              match ws_words s' with
              | w :: ws => (c :: w) :: ws
              | [] => [[c]]
              end
        end
  end.

(** The markup punctuation of the specification: [# * ` _ ~ [ ] ( )]. *)
Definition markup_characters : jsstring := [35; 42; 96; 95; 126; 91; 93; 40; 41]%N.

Definition without_markup (content : jsstring) : jsstring :=
  filter (fun c => negb (existsb (N.eqb c) markup_characters)) content.

Definition surviving_words (content : jsstring) : list jsstring :=
  filter (fun w => negb (length w <=? 2)) (ws_words (without_markup content)).

Definition title_spec (content : jsstring) : jsstring :=
  match surviving_words content with
  | [] => New_chat
  | ws =>
      let joined := join_space (firstn 3 ws) in
      if 20 <? length joined then firstn 17 joined ++ js "..." else joined
  end.

(** ** JSON values, exceptions and property access *)

(** The values a parsed JSON body can hold, and [undefined] for what it does
    not hold.  Numbers are kept as integers: the handlers only test them for
    truthiness and compare them with strings. *)
#[warnings="-register-all"]
Inductive jsval : Type :=
| JUndefined
| JNull
| JBool (b : bool)
| JNum (n : Z)
| JStr (s : jsstring)
| JArr (items : list jsval)
| JObj (fields : list (jsstring * jsval)).

(** [ToBoolean] *)
Definition truthy (v : jsval) : bool :=
  match v with
  | JUndefined | JNull => false
  | JBool b => b
  | JNum n => negb (n =? 0)%Z
  | JStr s => nonempty s
  | JArr _ | JObj _ => true
  end.

(** Strict equality with a string: [v === s]. *)
Definition is_string (s : jsstring) (v : jsval) : bool :=
  match v with
  | JStr t => jsstring_eqb t s
  | _ => false
  end.

Inductive js_error : Type :=
| JsError (message : jsstring)   (* [new Error(message)] *)
| JsTypeError.                   (* raised by the engine *)

Inductive completion (A : Type) : Type :=
| Normal (a : A)
| Throw (e : js_error).
Arguments Normal {A} a.
Arguments Throw {A} e.

Fixpoint own_property (k : jsstring) (fields : list (jsstring * jsval)) : option jsval :=
  match fields with
  | [] => None
  | (k', v) :: rest => if jsstring_eqb k' k then Some v else own_property k rest
  end.

(** [v.k] for a name [k] that no built-in prototype defines ([role],
    [content]): reading it off [null] or [undefined] throws, off a primitive
    or an array gives [undefined], off an object gives the own property. *)
Definition get_field (v : jsval) (k : jsstring) : completion jsval :=
  match v with
  | JUndefined | JNull => Throw JsTypeError
  | JObj fields =>
      match own_property k fields with
      | Some x => Normal x
      | None => Normal JUndefined
      end
  | _ => Normal JUndefined
  end.

(** Structural equality of JSON values, used by the store to match a column
    against a filter value. *)
Fixpoint jsval_eqb (a b : jsval) {struct a} : bool :=
  match a, b with
  | JUndefined, JUndefined => true
  | JNull, JNull => true
  | JBool x, JBool y => Bool.eqb x y
  | JNum x, JNum y => (x =? y)%Z
  | JStr x, JStr y => jsstring_eqb x y
  | JArr xs, JArr ys =>
      (fix all2 (xs ys : list jsval) {struct xs} : bool :=
         match xs, ys with
         | [], [] => true
         | x :: xs', y :: ys' => jsval_eqb x y && all2 xs' ys'
         | _, _ => false
         end) xs ys
  | JObj xs, JObj ys =>
      (fix all2 (xs ys : list (jsstring * jsval)) {struct xs} : bool :=
         match xs, ys with
         | [], [] => true
         | (k, x) :: xs', (k', y) :: ys' =>
             jsstring_eqb k k' && jsval_eqb x y && all2 xs' ys'
         | _, _ => false
         end) xs ys
  | _, _ => false
  end.

(** [s.replace(p, '')] for a string pattern: the first occurrence removed. *)
Fixpoint strip_prefix (p s : jsstring) : option jsstring :=
  match p, s with
  | [], _ => Some s
  | _ :: _, [] => None
  | a :: p', b :: s' => if N.eqb a b then strip_prefix p' s' else None
  end.

Fixpoint remove_first (p s : jsstring) : jsstring :=
  match strip_prefix p s with
  | Some rest => rest
  | None =>
      match s with
      | [] => []
      | c :: s' => c :: remove_first p s'
      end
  end.

(** ** The persistence store

    The two tables of the managed backend, the trace of the calls issued to
    it, and the console.  Row identifiers of messages and the timestamps the
    store assigns are not read by the handlers and are left out. *)

Record chat_row := { c_id : jsval; c_user_id : jsstring; c_title : jsstring }.
Record message_row := { m_chat_id : jsval; m_role : jsval; m_content : jsval }.

Inductive store_op : Type :=
| InsertChat (user_id title : jsstring)
| InsertMessages (rows : list message_row)
| SelectChat (id user_id : jsstring)
| SelectChatIds (user_id : jsstring)
| SelectSessions (user_id : jsstring)
| DeleteMessagesOfChat (chat_id : jsstring)
| DeleteMessagesOfChats (chat_ids : list jsval)
| DeleteChat (id : jsstring)
| DeleteOwnedChat (id user_id : jsstring)
| DeleteChatsOfUser (user_id : jsstring).

(** A call to the store, with the tables as the call left them. *)
Record store_event := {
  op : store_op;
  chats_after : list chat_row;
  messages_after : list message_row
}.

Record log_line := { log_tag : jsstring; log_error : option js_error }.

Record world := {
  chats : list chat_row;
  messages : list message_row;
  store_trace : list store_event;   (* oldest call first *)
  provider_calls : nat;
  console : list log_line           (* oldest line first *)
}.

(** What the store answers: whether its [k]-th call (counted from the start
    of the trace) reports an error, and the identifier it issues when that
    call creates a row. *)
Record store_oracle := {
  store_fails : nat -> bool;
  store_new_id : nat -> jsval
}.

Definition console_error (w : world) (tag : string) (e : option js_error) : world :=
  {| chats := chats w; messages := messages w; store_trace := store_trace w;
     provider_calls := provider_calls w;
     console := console w ++ [{| log_tag := js tag; log_error := e |}] |}.

Definition call_provider (w : world) : world :=
  {| chats := chats w; messages := messages w; store_trace := store_trace w;
     provider_calls := S (provider_calls w); console := console w |}.

(** One call to the store: it is recorded, and the tables change only when
    the call succeeds. *)
Definition store_call (o : store_oracle) (w : world) (op : store_op)
    (chats' : list chat_row) (messages' : list message_row) : bool * world :=
  let failed := store_fails o (length (store_trace w)) in
  let chats' := if failed then chats w else chats' in
  let messages' := if failed then messages w else messages' in
  (negb failed,
   {| chats := chats';
      messages := messages';
      store_trace :=
        store_trace w ++ [{| op := op; chats_after := chats'; messages_after := messages' |}];
      provider_calls := provider_calls w; console := console w |}).

(** [from('chats').insert({ user_id, title }).select('id').single()] *)
Definition insert_chat (o : store_oracle) (w : world) (user_id title : jsstring)
    : option jsval * world :=
  let id := store_new_id o (length (store_trace w)) in
  let '(ok, w') :=
    store_call o w (InsertChat user_id title)
      (chats w ++ [{| c_id := id; c_user_id := user_id; c_title := title |}])
      (messages w) in
  (if ok then Some id else None, w').

(** [from('messages').insert(rows)] *)
Definition insert_messages (o : store_oracle) (w : world) (rows : list message_row)
    : bool * world :=
  store_call o w (InsertMessages rows) (chats w) (messages w ++ rows).

(** ** HTTP requests and responses *)

Record request_body := {
  b_messages : jsval;
  b_model : option jsstring;     (* [None]: the key is absent *)
  b_stream : jsval;
  b_userId : jsval;
  b_chatId : jsval
}.

Record request := {
  method : jsstring;
  authorization : option jsstring;     (* [req.headers.authorization] *)
  body : option request_body;          (* [None]: [req.body] is undefined *)
  query_sessionId : option jsstring    (* [req.query.sessionId] *)
}.

(** The text of an [error] field.  A message that embeds the message of a
    caught exception is kept symbolic. *)
Inductive error_text : Type :=
| Lit (s : jsstring)
| WithMessage (prefix : jsstring) (e : js_error)   (* [prefix + e.message] *)
| MessageOr (e : js_error) (fallback : jsstring)   (* [e.message || fallback] *)
| InvalidRole (index : nat) (role : jsval)
| InvalidContent (index : nat)
| ProviderMessageOr (message : jsval) (fallback : jsstring).

Inductive json_body : Type :=
| ErrorBody (error : error_text)
| CompletionBody (content : jsstring) (sessionId sessionTitle : jsval)
| ProviderBody (data : jsval) (userId : jsstring)
| SessionsBody (sessions : list (chat_row * list message_row))
| SuccessBody.

(** The events written to an open [text/event-stream] response. *)
Inductive sse_event : Type :=
| DeltaEvent (content : jsstring)   (* [{ choices: [{ delta: { content } }] }] *)
| DataEvent (payload : jsstring)
| ErrorEvent (error : error_text)
| DoneEvent.                        (* [data: [DONE]] *)

Inductive response : Type :=
| Json (status : nat) (b : json_body)
| EventStream (status : nat) (events : list sse_event) (ended : bool)
| Unhandled (e : js_error).

Definition status_of (r : response) : option nat :=
  match r with
  | Json s _ => Some s
  | EventStream s _ _ => Some s
  | Unhandled _ => None
  end.

(** The [delta.content] fragments of an event stream, concatenated in the
    order they were written. *)
Definition delta_text (events : list sse_event) : jsstring :=
  concat (map (fun ev => match ev with DeltaEvent c => c | _ => [] end) events).

(** [!v] for an environment variable or a header. *)
Definition present (v : option jsstring) : bool :=
  match v with
  | Some s => nonempty s
  | None => false
  end.

(** [req.headers.authorization?.replace('Bearer ', '')] *)
Definition bearer_token (req : request) : option jsstring :=
  option_map (remove_first (js "Bearer ")) (authorization req).

(** [!messages || !Array.isArray(messages) || messages.length === 0] fails. *)
Definition nonempty_array (v : jsval) : option (list jsval) :=
  match v with
  | JArr (m :: ms) => Some (m :: ms)
  | _ => None
  end.

(** The reply of [supabase.auth.getUser(token)]: [{ data: { user }, error }],
    with the [id] of the user when there is one, or an exception. *)
Inductive auth_reply : Type :=
| AuthReply (user : option jsstring) (error : bool)
| AuthThrow (e : js_error).

(** ** The xAI relay with Supabase persistence *)

Module Relay.

(** Supported xAI models. *)
Definition languageModels : list (jsstring * jsstring) :=
  [ (js "grok-4", js "grok-4-latest");
    (js "grok-3", js "grok-3-latest");
    (js "grok-3-fast", js "grok-3-fast-latest");
    (js "grok-3-mini", js "grok-3-mini-latest");
    (js "grok-3-mini-fast", js "grok-3-mini-fast-latest") ].

(** [languageModels] is an object literal: besides its own keys a lookup
    finds the properties of [Object.prototype], all of them functions or
    objects. *)
Definition Object_prototype : list jsstring :=
  map js [ "constructor"; "__defineGetter__"; "__defineSetter__";
           "hasOwnProperty"; "__lookupGetter__"; "__lookupSetter__";
           "isPrototypeOf"; "propertyIsEnumerable"; "toString"; "valueOf";
           "__proto__"; "toLocaleString" ]%string.

(** The value of [languageModels[model]] when it is not [undefined]. *)
Inductive model_ref : Type :=
| ModelId (id : jsstring)          (* the value of an own key *)
| Inherited (name : jsstring).     (* a member of [Object.prototype] *)

Fixpoint own_key (k : jsstring) (table : list (jsstring * jsstring)) : option jsstring :=
  match table with
  | [] => None
  | (k', v) :: rest => if jsstring_eqb k' k then Some v else own_key k rest
  end.

Definition is_own_key (model : jsstring) : bool :=
  match own_key model languageModels with Some _ => true | None => false end.

Definition is_inherited (model : jsstring) : bool :=
  existsb (jsstring_eqb model) Object_prototype.

(** [languageModels[model]], [None] standing for [undefined]. *)
Definition languageModels_get (model : jsstring) : option model_ref :=
  match own_key model languageModels with
  | Some id => Some (ModelId id)
  | None => if is_inherited model then Some (Inherited model) else None
  end.

Definition model_truthy (v : option model_ref) : bool :=
  match v with
  | Some (ModelId id) => nonempty id
  | Some (Inherited _) => true
  | None => false
  end.

(** A value read from the stream: a chunk of bytes, or a string, which is
    what the [textStream] of the [ai] SDK yields. *)
Inductive stream_value : Type :=
| Bytes (bytes : list N)
| Text (s : jsstring).

(** The [textStream] of [streamText]: the values its reader yields, and
    the exception a read raises after them, if any. *)
Record text_stream := {
  chunks : list stream_value;
  failure : option js_error
}.

Record env := {
  SUPABASE_URL : option jsstring;
  SUPABASE_SERVICE_ROLE_KEY : option jsstring;
  XAI_API_KEY : option jsstring;
  getUser : jsstring -> auth_reply;
  generateText : model_ref -> list jsval -> completion jsstring;
  streamText : model_ref -> list jsval -> completion text_stream;
  decode : list N -> jsstring;          (* UTF-8 decoding of one chunk of bytes *)
  store : store_oracle
}.

(** [new TextDecoder().decode(value)]: a chunk of bytes is decoded on its
    own, by a decoder made for it; a value that is not a buffer makes the
    call throw a [TypeError]. *)
Definition TextDecoder_decode (e : env) (value : stream_value) : completion jsstring :=
  match value with
  | Bytes bytes => Normal (decode e bytes)
  | Text _ => Throw JsTypeError
  end.

(** The reading loop: the texts decoded, in order, until the stream is
    exhausted, a read throws or a decoding throws, and the exception that
    ended the loop, if any.  A value whose decoding throws is not among the
    texts. *)
Fixpoint read_stream (e : env) (values : list stream_value) (failure : option js_error)
    : list jsstring * option js_error :=
  match values with
  | [] => ([], failure)
  | value :: rest =>
      match TextDecoder_decode e value with
      | Throw streamError => ([], Some streamError)
      | Normal chunk =>
          let '(texts, streamError) := read_stream e rest failure in
          (chunk :: texts, streamError)
      end
  end.

(** [messages.find(m => m.role === 'user')] *)
Fixpoint find_user (ms : list jsval) : completion (option jsval) :=
  match ms with
  | [] => Normal None
  | m :: rest =>
      match get_field m (js "role") with
      | Throw e => Throw e
      | Normal r => if is_string (js "user") r then Normal (Some m) else find_user rest
      end
  end.

(** [messages.find(m => m.role === 'user')?.content || 'New chat'] *)
Definition firstUserContent (ms : list jsval) : completion jsval :=
  match find_user ms with
  | Throw e => Throw e
  | Normal None => Normal (JStr New_chat)
  | Normal (Some m) =>
      match get_field m (js "content") with
      | Throw e => Throw e
      | Normal c => Normal (if truthy c then c else JStr New_chat)
      end
  end.

(** [{ chat_id, role: msg.role, content: msg.content }] *)
Definition to_row (chat_id : jsval) (msg : jsval) : completion message_row :=
  match get_field msg (js "role") with
  | Throw e => Throw e
  | Normal r =>
      match get_field msg (js "content") with
      | Throw e => Throw e
      | Normal c => Normal {| m_chat_id := chat_id; m_role := r; m_content := c |}
      end
  end.

Fixpoint to_rows (chat_id : jsval) (msgs : list jsval) : completion (list message_row) :=
  match msgs with
  | [] => Normal []
  | m :: rest =>
      match to_row chat_id m with
      | Throw e => Throw e
      | Normal r =>
          match to_rows chat_id rest with
          | Throw e => Throw e
          | Normal rs => Normal (r :: rs)
          end
      end
  end.

Definition assistant_message (generatedText : jsstring) : jsval :=
  JObj [ (js "role", JStr (js "assistant")); (js "content", JStr generatedText) ].

(** The body of the [try] block of [saveToSupabase]. *)
Definition save_body (o : store_oracle) (w : world) (userId : jsstring)
    (messages : list jsval) (generatedText : jsstring) (chatId sessionTitle : jsval)
    : completion (jsval * jsval) * world :=
  if negb (truthy chatId) then
    match firstUserContent messages with
    | Throw e => (Throw e, w)
    | Normal (JStr content) =>
        let sessionTitle := generateChatTitle content in
        match insert_chat o w userId sessionTitle with
        | (None, w1) =>
            (Throw (JsError (js "Failed to create chat")),
             console_error w1 "Error creating chat:" None)
        | (Some newChatId, w1) =>
            let allMessages := messages ++ [assistant_message generatedText] in
            match to_rows newChatId allMessages with
            | Throw e => (Throw e, w1)
            | Normal inserts =>
                match insert_messages o w1 inserts with
                | (false, w2) =>
                    (Throw (JsError (js "Failed to save messages")),
                     console_error w2 "Error saving messages:" None)
                | (true, w2) => (Normal (newChatId, JStr sessionTitle), w2)
                end
            end
        end
    | Normal _ => (Throw JsTypeError, w)      (* [content.replace] is not a function *)
    end
  else
    let lastUserMessage := last messages JUndefined in
    match to_row chatId lastUserMessage with
    | Throw e => (Throw e, w)
    | Normal r =>
        let inserts :=
          [ r; {| m_chat_id := chatId; m_role := JStr (js "assistant");
                  m_content := JStr generatedText |} ] in
        match insert_messages o w inserts with
        | (false, w1) =>
            (Throw (JsError (js "Failed to append messages")),
             console_error w1 "Error appending messages:" None)
        | (true, w1) => (Normal (chatId, sessionTitle), w1)
        end
    end.

(** [saveToSupabase]: returns [{ newChatId, sessionTitle }]; whatever the
    body throws is logged and thrown again. *)
Definition saveToSupabase (o : store_oracle) (w : world) (userId : jsstring)
    (messages : list jsval) (generatedText : jsstring) (chatId sessionTitle : jsval)
    : completion (jsval * jsval) * world :=
  match save_body o w userId messages generatedText chatId sessionTitle with
  | (Normal r, w') => (Normal r, w')
  | (Throw e, w') => (Throw e, console_error w' "Error in saveToSupabase:" (Some e))
  end.

(** The verification of the bearer credential when [userId] is given: a
    terminal response, or the value of [verifiedUserId] ([None] for
    [null]). *)
Definition authenticate (e : env) (w : world) (req : request) (userId : jsval)
    : (response * world) + option jsstring :=
  if truthy userId then
    match bearer_token req with
    | None => inl (Json 401 (ErrorBody (Lit (js "Authentication token required"))), w)
    | Some token =>
        if negb (nonempty token) then
          inl (Json 401 (ErrorBody (Lit (js "Authentication token required"))), w)
        else
          match getUser e token with
          | AuthThrow err =>
              inl (Json 401 (ErrorBody (Lit (js "Authentication failed"))),
                   console_error w "Authentication error:" (Some err))
          | AuthReply user error =>
              match user with
              | Some id =>
                  if error || negb (is_string id userId) then
                    inl (Json 401 (ErrorBody (Lit (js "Invalid or unauthorized token"))), w)
                  else inr (Some id)
              | None =>
                  inl (Json 401 (ErrorBody (Lit (js "Invalid or unauthorized token"))), w)
              end
          end
    end
  else inr None.

(** [if (verifiedUserId)] *)
Definition verified (verifiedUserId : option jsstring) : option jsstring :=
  match verifiedUserId with
  | Some id => if nonempty id then Some id else None
  | None => None
  end.

(** The streaming branch: the fragments are forwarded as they are read and
    collected in [generatedText]; the save is started after the terminal
    event and its failure only reaches the console. *)
Definition respond_stream (e : env) (w : world) (modelInstance : model_ref)
    (messages : list jsval) (verifiedUserId : option jsstring) (chatId : jsval)
    : response * world :=
  let w := call_provider w in
  match streamText e modelInstance messages with
  | Throw modelError =>
      (Json 500 (ErrorBody (WithMessage (js "Failed to initialize AI model: ") modelError)),
       console_error w "Model initialization error:" (Some modelError))
  | Normal textStream =>
      let '(fragments, broken) := read_stream e (chunks textStream) (failure textStream) in
      let generatedText := concat fragments in
      let written := map DeltaEvent fragments in
      match broken with
      | Some streamError =>
          (EventStream 200
             (written ++ [ErrorEvent (WithMessage (js "Stream failed: ") streamError)]) true,
           console_error w "Stream error:" (Some streamError))
      | None =>
          let w :=
            match verified verifiedUserId with
            | Some uid =>
                match saveToSupabase (store e) w uid messages generatedText chatId JNull with
                | (Normal _, w') => w'
                | (Throw error, w') =>
                    console_error w' "Error saving to Supabase:" (Some error)
                end
            | None => w
            end in
          (EventStream 200 (written ++ [DoneEvent]) true, w)
      end
  end.

(** The non-streaming branch: the save is awaited inside the [try] block
    of the generation. *)
Definition respond_buffered (e : env) (w : world) (modelInstance : model_ref)
    (messages : list jsval) (verifiedUserId : option jsstring) (chatId : jsval)
    : response * world :=
  let w := call_provider w in
  match generateText e modelInstance messages with
  | Throw generateError =>
      (Json 500 (ErrorBody (WithMessage (js "Failed to generate response: ") generateError)),
       console_error w "Text generation error:" (Some generateError))
  | Normal generatedText =>
      match verified verifiedUserId with
      | Some uid =>
          match saveToSupabase (store e) w uid messages generatedText chatId JNull with
          | (Normal (newChatId, sessionTitle), w') =>
              (Json 200 (CompletionBody generatedText newChatId sessionTitle), w')
          | (Throw generateError, w') =>
              (Json 500 (ErrorBody (WithMessage (js "Failed to generate response: ")
                                      generateError)),
               console_error w' "Text generation error:" (Some generateError))
          end
      | None => (Json 200 (CompletionBody generatedText chatId JNull), w)
      end
  end.

Definition handler (e : env) (w : world) (req : request) : response * world :=
  if negb (jsstring_eqb (method req) (js "POST")) then
    (Json 405 (ErrorBody (Lit (js "Method not allowed"))), w)
  else if negb (present (SUPABASE_URL e)) || negb (present (SUPABASE_SERVICE_ROLE_KEY e))
          || negb (present (XAI_API_KEY e)) then
    (Json 500 (ErrorBody (Lit (js "Server configuration missing"))), w)
  else
    match body req with
    | None =>
        (Json 500 (ErrorBody (MessageOr JsTypeError (js "Internal server error"))),
         console_error w "Chat API error:" (Some JsTypeError))
    | Some b =>
        match nonempty_array (b_messages b) with
        | None =>
            (Json 400 (ErrorBody (Lit (js "Messages are required and must be an array"))), w)
        | Some messages =>
            let model := match b_model b with Some m => m | None => js "grok-4" end in
            match languageModels_get model with
            | None => (Json 400 (ErrorBody (Lit (js "Invalid model: " ++ model))), w)
            | Some modelValue =>
                if negb (model_truthy (Some modelValue)) then
                  (Json 400 (ErrorBody (Lit (js "Invalid model: " ++ model))), w)
                else
                  match authenticate e w req (b_userId b) with
                  | inl answer => answer
                  | inr verifiedUserId =>
                      let stream :=
                        match b_stream b with JUndefined => JBool true | v => v end in
                      if truthy stream then
                        respond_stream e w modelValue messages verifiedUserId (b_chatId b)
                      else
                        respond_buffered e w modelValue messages verifiedUserId (b_chatId b)
                  end
            end
        end
    end.

End Relay.

(** ** The Groq relay of [src/api/chat.js] *)

Module GroqRelay.

Record groq_request := {
  g_model : jsstring;
  g_messages : list jsval;
  g_stream : bool                (* the [stream: true] key is present *)
}.

(** What [fetch] resolves to: [response.ok], [response.status], the result
    of [response.json()], and for a streamed body the decoded fragments its
    reader yields followed by the exception of a failing read, if any. *)
Record fetch_response := {
  ok : bool;
  http_status : nat;
  json : completion jsval;
  body_text : list jsstring;
  body_failure : option js_error
}.

Record env := {
  GROQ_API_KEY : option jsstring;
  fetch : groq_request -> completion fetch_response;
  (** [JSON.stringify(JSON.parse(s))], [None] when the parse throws. *)
  reserialize : jsstring -> option jsstring
}.

Definition is_role (role : jsval) : bool :=
  existsb (fun r => is_string (js r) role) ["system"; "user"; "assistant"]%string.

Definition is_jsstr (v : jsval) : bool :=
  match v with JStr _ => true | _ => false end.

(** The validation loop over [messages], from index [i]: the first
    failure found, if any. *)
Fixpoint validate (i : nat) (messages : list jsval) : completion (option error_text) :=
  match messages with
  | [] => Normal None
  | message :: rest =>
      match get_field message (js "role") with
      | Throw e => Throw e
      | Normal role =>
          if negb (truthy role) || negb (is_role role) then
            Normal (Some (InvalidRole i role))
          else
            match get_field message (js "content") with
            | Throw e => Throw e
            | Normal content =>
                if negb (truthy content) || negb (is_jsstr content) then
                  Normal (Some (InvalidContent i))
                else validate (S i) rest
            end
      end
  end.

Definition is_alnum (c : N) : bool :=
  (((48 <=? c) && (c <=? 57)) || ((65 <=? c) && (c <=? 90))
   || ((97 <=? c) && (c <=? 122)))%N.

(** [formattedUserId] *)
Definition format_user (userId : jsval) : completion jsstring :=
  if truthy userId then
    match userId with
    | JStr s => Normal (firstn 8 (filter is_alnum s))
    | _ => Throw JsTypeError              (* [userId.replace] is not a function *)
    end
  else Normal (js "anonymous").

(** [errorData.error?.message] *)
Definition provider_error_message (errorData : jsval) : completion jsval :=
  match get_field errorData (js "error") with
  | Throw e => Throw e
  | Normal (JUndefined | JNull) => Normal JUndefined
  | Normal err => get_field err (js "message")
  end.

(** [s.split('\n')] *)
Fixpoint split_lines (s : jsstring) : list jsstring :=
  match s with
  | [] => [[]]
  | c :: s' =>
      if (c =? 10)%N then [] :: split_lines s'
      else
        match split_lines s' with
        | l :: ls => (c :: l) :: ls
        | [] => [[c]]
        end
  end.

(** One complete line of the provider's stream. *)
Definition forward_line (e : env) (st : list sse_event * world) (line : jsstring)
    : list sse_event * world :=
  let '(written, w) := st in
  match strip_prefix (js "data: ") line with
  | Some payload =>
      if jsstring_eqb line (js "data: [DONE]") then st
      else
        match reserialize e payload with
        | Some data => (written ++ [DataEvent data], w)
        | None => (written, console_error w "Error parsing JSON:" None)
        end
  | None => st
  end.

(** One fragment read from the body: the complete lines are forwarded, the
    incomplete last one stays in the buffer. *)
Definition forward_fragment (e : env) (st : jsstring * (list sse_event * world))
    (fragment : jsstring) : jsstring * (list sse_event * world) :=
  let '(buffer, out) := st in
  let lines := split_lines (buffer ++ fragment) in
  (last lines [], fold_left (forward_line e) (removelast lines) out).

Definition respond_stream (e : env) (w : world) (groqRequest : groq_request)
    : response * world :=
  let w := call_provider w in
  let internal (written : list sse_event) (w : world) (err : js_error) :=
    (EventStream 200 (written ++ [ErrorEvent (Lit (js "Internal server error"))]) true,
     console_error w "Error in streaming API:" (Some err)) in
  match fetch e groqRequest with
  | Throw err => internal [] w err
  | Normal response =>
      if negb (ok response) then
        match json response with
        | Throw err => internal [] w err
        | Normal errorData =>
            match provider_error_message errorData with
            | Throw err => internal [] w err
            | Normal message =>
                (EventStream 200
                   [ErrorEvent (ProviderMessageOr message (js "API request failed"))] true,
                 w)
            end
        end
      else
        let '(_, (written, w)) :=
          fold_left (forward_fragment e) (body_text response) ([], ([], w)) in
        match body_failure response with
        | Some err => internal written w err
        | None => (EventStream 200 (written ++ [DoneEvent]) true, w)
        end
  end.

Definition respond_buffered (e : env) (w : world) (groqRequest : groq_request)
    (formattedUserId : jsstring) : response * world :=
  let w := call_provider w in
  let internal (w : world) (err : js_error) :=
    (Json 500 (ErrorBody (Lit (js "Internal server error"))),
     console_error w "Error in chat API:" (Some err)) in
  match fetch e groqRequest with
  | Throw err => internal w err
  | Normal response =>
      match json response with
      | Throw err => internal w err
      | Normal payload =>
          if negb (ok response) then
            match provider_error_message payload with
            | Throw err => internal w err
            | Normal message =>
                (Json (http_status response)
                   (ErrorBody (ProviderMessageOr message (js "API request failed"))), w)
            end
          else
            match payload with
            | JObj _ | JArr _ => (Json 200 (ProviderBody payload formattedUserId), w)
            | _ => internal w JsTypeError     (* [data.userId = ...] on a primitive *)
            end
      end
  end.

Definition handler (e : env) (w : world) (req : request) : response * world :=
  let internal (w : world) (err : js_error) :=
    (Json 500 (ErrorBody (Lit (js "Internal server error"))),
     console_error w "Error in chat API:" (Some err)) in
  if negb (jsstring_eqb (method req) (js "POST")) then
    (Json 405 (ErrorBody (Lit (js "Method not allowed"))), w)
  else
    match body req with
    | None => internal w JsTypeError
    | Some b =>
        match nonempty_array (b_messages b) with
        | None =>
            (Json 400 (ErrorBody (Lit (js "Messages are required and must be an array"))), w)
        | Some messages =>
            match validate 0 messages with
            | Throw err => internal w err
            | Normal (Some invalid) => (Json 400 (ErrorBody invalid), w)
            | Normal None =>
                let userId := match b_userId b with JUndefined => JNull | v => v end in
                match format_user userId with
                | Throw err => internal w err
                | Normal formattedUserId =>
                    if negb (present (GROQ_API_KEY e)) then
                      (Json 500 (ErrorBody (Lit (js "API key not configured"))), w)
                    else
                      let model :=
                        match b_model b with
                        | Some m => m
                        | None => js "llama-3.3-70b-versatile"
                        end in
                      let stream := truthy (b_stream b) in
                      let groqRequest :=
                        {| g_model := model; g_messages := messages; g_stream := stream |} in
                      if stream then respond_stream e w groqRequest
                      else respond_buffered e w groqRequest formattedUserId
                end
            end
        end
    end.

End GroqRelay.

(** ** Filtered reads and deletes of the store

    The store applies the call it is given and nothing else: a rule of the
    backend that would remove or protect dependent rows on its own is not
    part of what a handler does. *)

Definition chat_has_id (id : jsstring) (c : chat_row) : bool :=
  jsval_eqb (c_id c) (JStr id).
Definition chat_of_user (user_id : jsstring) (c : chat_row) : bool :=
  jsstring_eqb (c_user_id c) user_id.
Definition message_of_chat (chat_id : jsstring) (m : message_row) : bool :=
  jsval_eqb (m_chat_id m) (JStr chat_id).
Definition message_of_chats (chat_ids : list jsval) (m : message_row) : bool :=
  existsb (jsval_eqb (m_chat_id m)) chat_ids.

Definition reject (A : Type) (p : A -> bool) (l : list A) : list A :=
  filter (fun x => negb (p x)) l.

(** [from('chats').select('id').eq('id', id).eq('user_id', user_id).single()]:
    the row, when the call succeeds and exactly one row matches. *)
Definition select_chat (o : store_oracle) (w : world) (id user_id : jsstring)
    : option chat_row * world :=
  let '(ok, w') := store_call o w (SelectChat id user_id) (chats w) (messages w) in
  (if ok then
     match filter (fun c => chat_has_id id c && chat_of_user user_id c) (chats w) with
     | [c] => Some c
     | _ => None
     end
   else None, w').

(** [from('chats').select('id').eq('user_id', user_id)] *)
Definition select_chat_ids (o : store_oracle) (w : world) (user_id : jsstring)
    : option (list jsval) * world :=
  let '(ok, w') := store_call o w (SelectChatIds user_id) (chats w) (messages w) in
  (if ok then Some (map c_id (filter (chat_of_user user_id) (chats w))) else None, w').

(** [from('messages').delete().eq('chat_id', chat_id)] *)
Definition delete_messages_of_chat (o : store_oracle) (w : world) (chat_id : jsstring)
    : bool * world :=
  store_call o w (DeleteMessagesOfChat chat_id) (chats w)
    (reject (message_of_chat chat_id) (messages w)).

(** [from('messages').delete().in('chat_id', chat_ids)] *)
Definition delete_messages_of_chats (o : store_oracle) (w : world) (chat_ids : list jsval)
    : bool * world :=
  store_call o w (DeleteMessagesOfChats chat_ids) (chats w)
    (reject (message_of_chats chat_ids) (messages w)).

(** [from('chats').delete().eq('id', id)] *)
Definition delete_chat (o : store_oracle) (w : world) (id : jsstring) : bool * world :=
  store_call o w (DeleteChat id) (reject (chat_has_id id) (chats w)) (messages w).

(** [from('chats').delete().eq('id', id).eq('user_id', user_id)] *)
Definition delete_owned_chat (o : store_oracle) (w : world) (id user_id : jsstring)
    : bool * world :=
  store_call o w (DeleteOwnedChat id user_id)
    (reject (fun c => chat_has_id id c && chat_of_user user_id c) (chats w)) (messages w).

(** [from('chats').delete().eq('user_id', user_id)] *)
Definition delete_chats_of_user (o : store_oracle) (w : world) (user_id : jsstring)
    : bool * world :=
  store_call o w (DeleteChatsOfUser user_id) (reject (chat_of_user user_id) (chats w))
    (messages w).

(** The chats of a user with their messages embedded, newest chat first
    (the tables keep their rows in insertion order). *)
Definition select_sessions (o : store_oracle) (w : world) (user_id : jsstring)
    : option (list (chat_row * list message_row)) * world :=
  let '(ok, w') := store_call o w (SelectSessions user_id) (chats w) (messages w) in
  (if ok then
     Some (map (fun c => (c, filter (fun m => jsval_eqb (m_chat_id m) (c_id c)) (messages w)))
             (rev (filter (chat_of_user user_id) (chats w))))
   else None, w').

(** ** Deletion in [src/New api/chat-history.js] *)

Module History.

Record env := {
  SUPABASE_URL : option jsstring;
  SUPABASE_SERVICE_ROLE_KEY : option jsstring;
  (** [getAuth().verifyIdToken(token)], reduced to the [uid] it decodes. *)
  verifyIdToken : jsstring -> completion jsstring;
  store : store_oracle
}.

Definition failed (w : world) (tag message : string) : response * world :=
  (Json 500 (ErrorBody (Lit (js message))), console_error w tag None).

Definition handleDelete (e : env) (w : world) (req : request) : response * world :=
  if negb (present (SUPABASE_URL e)) || negb (present (SUPABASE_SERVICE_ROLE_KEY e)) then
    (Json 500 (ErrorBody (Lit (js "Server configuration missing"))), w)
  else if negb (present (bearer_token req)) then
    (Json 401 (ErrorBody (Lit (js "Authentication token required"))), w)
  else
    match verifyIdToken e (match bearer_token req with Some t => t | None => [] end) with
    | Throw error =>
        (Json 500 (ErrorBody (MessageOr error (js "Internal server error"))),
         console_error w "Chat history API error:" (Some error))
    | Normal userId =>
        if present (query_sessionId req) then
          let sessionId := match query_sessionId req with Some s => s | None => [] end in
          (* Delete specific chat: first verify the chat belongs to the user *)
          match select_chat (store e) w sessionId userId with
          | (None, w) => (Json 404 (ErrorBody (Lit (js "Chat not found"))), w)
          | (Some _, w) =>
              (* Delete messages first (foreign key constraint) *)
              match delete_messages_of_chat (store e) w sessionId with
              | (false, w) => failed w "Error deleting messages:" "Failed to delete messages"
              | (true, w) =>
                  match delete_chat (store e) w sessionId with
                  | (false, w) => failed w "Error deleting chat:" "Failed to delete chat"
                  | (true, w) => (Json 200 SuccessBody, w)
                  end
              end
          end
        else
          (* Delete all chats for the user: first delete all messages *)
          match select_chat_ids (store e) w userId with
          | (None, w) => failed w "Error fetching user chats:" "Failed to fetch user chats"
          | (Some [], w) => (Json 200 SuccessBody, w)
          | (Some chatIds, w) =>
              match delete_messages_of_chats (store e) w chatIds with
              | (false, w) => failed w "Error deleting messages:" "Failed to delete messages"
              | (true, w) =>
                  match delete_chats_of_user (store e) w userId with
                  | (false, w) => failed w "Error deleting chats:" "Failed to delete chats"
                  | (true, w) => (Json 200 SuccessBody, w)
                  end
              end
          end
    end.

End History.

(** ** The handler of [src/api/chat-history.js] *)

Module LegacyHistory.

Record env := {
  SUPABASE_URL : option jsstring;
  SUPABASE_SERVICE_ROLE_KEY : option jsstring;
  getUser : jsstring -> auth_reply;
  store : store_oracle
}.

Definition internal (w : world) : response * world :=
  (Json 500 (ErrorBody (Lit (js "Internal server error"))),
   console_error w "History error:" None).

Definition handler (e : env) (w : world) (req : request) : response * world :=
  if negb (present (SUPABASE_URL e)) || negb (present (SUPABASE_SERVICE_ROLE_KEY e)) then
    (Json 500 (ErrorBody (Lit (js "Configuration missing"))), w)
  else if negb (present (bearer_token req)) then
    (Json 401 (ErrorBody (Lit (js "Authentication required"))), w)
  else
    match getUser e (match bearer_token req with Some t => t | None => [] end) with
    | AuthThrow err => (Unhandled err, w)       (* the call is outside the [try] *)
    | AuthReply _ true | AuthReply None _ =>
        (Json 401 (ErrorBody (Lit (js "Invalid token"))), w)
    | AuthReply (Some user_id) false =>
        if jsstring_eqb (method req) (js "GET") then
          match select_sessions (store e) w user_id with
          | (None, w) => internal w
          | (Some data, w) => (Json 200 (SessionsBody data), w)
          end
        else if jsstring_eqb (method req) (js "DELETE") then
          if present (query_sessionId req) then
            let sessionId := match query_sessionId req with Some s => s | None => [] end in
            match delete_owned_chat (store e) w sessionId user_id with
            | (false, w) => internal w
            | (true, w) => (Json 200 SuccessBody, w)
            end
          else
            match delete_chats_of_user (store e) w user_id with
            | (false, w) => internal w
            | (true, w) => (Json 200 SuccessBody, w)
            end
        else (Json 405 (ErrorBody (Lit (js "Method not allowed"))), w)
    end.

End LegacyHistory.

(** ** Vocabulary of the specification *)

(** [m.k], [undefined] where the access would throw. *)
Definition field (m : jsval) (k : string) : jsval :=
  match get_field m (js k) with
  | Normal v => v
  | Throw _ => JUndefined
  end.

Definition role_in_enumeration (role : jsval) : bool :=
  is_string (js "system") role || is_string (js "user") role
  || is_string (js "assistant") role.

Definition nonempty_text (content : jsval) : bool :=
  match content with
  | JStr c => nonempty c
  | _ => false
  end.

(** A message of the data model: a role of the enumeration and a content
    that is non-empty text. *)
Definition valid_message (m : jsval) : bool :=
  role_in_enumeration (field m "role") && nonempty_text (field m "content").

(** The row a message is persisted as. *)
Definition row_of (chat_id : jsval) (m : jsval) : message_row :=
  {| m_chat_id := chat_id; m_role := field m "role"; m_content := field m "content" |}.

Definition assistant_row (chat_id : jsval) (text : jsstring) : message_row :=
  {| m_chat_id := chat_id; m_role := JStr (js "assistant"); m_content := JStr text |}.

Definition has_user_role (m : jsval) : bool := is_string (js "user") (field m "role").

(** The calls a handler added to the trace of the store. *)
Definition new_events (before after : world) : list store_event :=
  skipn (length (store_trace before)) (store_trace after).

Definition deletes_chats (o : store_op) : bool :=
  match o with
  | DeleteChat _ | DeleteOwnedChat _ _ | DeleteChatsOfUser _ => true
  | _ => false
  end.

Definition deletes_messages (o : store_op) : bool :=
  match o with
  | DeleteMessagesOfChat _ | DeleteMessagesOfChats _ => true
  | _ => false
  end.

(** Every call that deletes session rows comes after a call that deleted
    message rows; [seen] tells that such a call came before [ops]. *)
Fixpoint messages_first (seen : bool) (ops : list store_op) : bool :=
  match ops with
  | [] => true
  | o :: rest =>
      if deletes_chats o then seen && messages_first seen rest
      else messages_first (seen || deletes_messages o) rest
  end.

(** No message row whose parent session row does not exist. *)
Definition orphan_free (cs : list chat_row) (ms : list message_row) : Prop :=
  forall m, In m ms -> exists c, In c cs /\ c_id c = m_chat_id m.

(** Values a property can be read from without an exception. *)
Definition object_coercible (m : jsval) : bool :=
  match m with
  | JUndefined | JNull => false
  | _ => true
  end.

(** The text the title of a new session is derived from: the content of the
    first message of role [user], ["New chat"] when there is none. *)
Definition first_user_text (msgs : list jsval) : jsstring :=
  match find has_user_role msgs with
  | Some m =>
      match field m "content" with
      | JStr c => c
      | _ => New_chat
      end
  | None => New_chat
  end.

(** *** Requests to the xAI relay *)

Definition configured (e : Relay.env) : Prop :=
  present (Relay.SUPABASE_URL e) = true
  /\ present (Relay.SUPABASE_SERVICE_ROLE_KEY e) = true
  /\ present (Relay.XAI_API_KEY e) = true.

Definition requested_model (b : request_body) : jsstring :=
  match b_model b with Some m => m | None => js "grok-4" end.

(** [stream = true] unless the body says otherwise. *)
Definition streaming (b : request_body) : bool :=
  truthy (match b_stream b with JUndefined => JBool true | v => v end).

(** A request that passes the four validations of the relay up to the
    credential: [POST], a configured server, a non-empty list [msgs] of
    valid messages and a model that is a key of the static mapping, sent to
    the provider as [id]. *)
Record valid_request (e : Relay.env) (req : request) (b : request_body)
    (msgs : list jsval) (id : jsstring) : Prop := {
  vr_method : method req = js "POST";
  vr_configured : configured e;
  vr_body : body req = Some b;
  vr_messages : b_messages b = JArr msgs;
  vr_nonempty : msgs <> [];
  vr_valid : forallb valid_message msgs = true;
  vr_model : Relay.own_key (requested_model b) Relay.languageModels = Some id
}.

(** The request names the subject [uid] and carries a bearer credential the
    identity verifier maps to [uid]. *)
Definition authenticated (e : Relay.env) (req : request) (b : request_body)
    (uid : jsstring) : Prop :=
  b_userId b = JStr uid /\ uid <> []
  /\ exists token, bearer_token req = Some token /\ token <> []
                   /\ Relay.getUser e token = AuthReply (Some uid) false.

(** ** A sample deployment

    Concrete collaborators, worlds and requests on which the handlers are
    run. *)

Module Sample.

Definition message (role content : string) : jsval :=
  JObj [ (js "role", JStr (js role)); (js "content", JStr (js content)) ].

Definition empty_world : world :=
  {| chats := []; messages := []; store_trace := []; provider_calls := 0; console := [] |}.

(** A store whose calls succeed, except those whose rank is in [faults]. *)
Definition store_with_faults (faults : list nat) : store_oracle :=
  {| store_fails := fun k => existsb (Nat.eqb k) faults;
     store_new_id := fun k => JStr (js "chat-" ++ repeat 49%N (S k)) |}.

(** The verifier knows one credential, that of ["alice"]. *)
Definition verifier (token : jsstring) : auth_reply :=
  if jsstring_eqb token (js "token-alice") then AuthReply (Some (js "alice")) false
  else AuthReply None true.

(** The provider answers ["Hello!"], in one piece or in two fragments. *)
Definition relay_env (faults : list nat) : Relay.env :=
  {| Relay.SUPABASE_URL := Some (js "https://db.example");
     Relay.SUPABASE_SERVICE_ROLE_KEY := Some (js "service-key");
     Relay.XAI_API_KEY := Some (js "xai-key");
     Relay.getUser := verifier;
     Relay.generateText := fun _ _ => Normal (js "Hello!");
     Relay.streamText := fun _ _ =>
       Normal {| Relay.chunks := [Relay.Bytes (js "Hel"); Relay.Bytes (js "lo!")];
                 Relay.failure := None |};
     Relay.decode := fun bytes => bytes;
     Relay.store := store_with_faults faults |}.

Definition turns : list jsval :=
  [ message "system" "Be brief.";
    message "user" "## Hello World from AI!!" ].

Definition chat_body (model : option string) (stream userId chatId : jsval) : request_body :=
  {| b_messages := JArr turns; b_model := option_map js model;
     b_stream := stream; b_userId := userId; b_chatId := chatId |}.

Definition post (credential : option string) (b : request_body) : request :=
  {| method := js "POST"; authorization := option_map js credential;
     body := Some b; query_sessionId := None |}.

(** The Groq provider answers every call with an empty JSON object. *)
Definition groq_env : GroqRelay.env :=
  {| GroqRelay.GROQ_API_KEY := Some (js "groq-key");
     GroqRelay.fetch := fun _ =>
       Normal {| GroqRelay.ok := true; GroqRelay.http_status := 200;
                 GroqRelay.json := Normal (JObj []);
                 GroqRelay.body_text := []; GroqRelay.body_failure := None |};
     GroqRelay.reserialize := fun s => Some s |}.

(** A request whose only message has a role outside the enumeration. *)
Definition odd_role_body : request_body :=
  {| b_messages := JArr [message "moderator" "hi"]; b_model := None;
     b_stream := JBool false; b_userId := JUndefined; b_chatId := JUndefined |}.

(** One session of ["alice"] with one message. *)
Definition one_session : world :=
  {| chats := [{| c_id := JStr (js "c1"); c_user_id := js "alice";
                  c_title := js "Hello World from" |}];
     messages := [row_of (JStr (js "c1")) (message "user" "hi")];
     store_trace := []; provider_calls := 0; console := [] |}.

Definition history_env : History.env :=
  {| History.SUPABASE_URL := Some (js "https://db.example");
     History.SUPABASE_SERVICE_ROLE_KEY := Some (js "service-key");
     History.verifyIdToken := fun token =>
       if jsstring_eqb token (js "token-alice") then Normal (js "alice")
       else Throw (JsError (js "invalid token"));
     History.store := store_with_faults [] |}.

Definition legacy_env : LegacyHistory.env :=
  {| LegacyHistory.SUPABASE_URL := Some (js "https://db.example");
     LegacyHistory.SUPABASE_SERVICE_ROLE_KEY := Some (js "service-key");
     LegacyHistory.getUser := verifier;
     LegacyHistory.store := store_with_faults [] |}.

Definition delete (credential : option string) (sessionId : option string) : request :=
  {| method := js "DELETE"; authorization := option_map js credential;
     body := None; query_sessionId := option_map js sessionId |}.

End Sample.

(** The same deployment of the relay with another store behind it. *)
Definition with_store (e : Relay.env) (o : store_oracle) : Relay.env :=
  {| Relay.SUPABASE_URL := Relay.SUPABASE_URL e;
     Relay.SUPABASE_SERVICE_ROLE_KEY := Relay.SUPABASE_SERVICE_ROLE_KEY e;
     Relay.XAI_API_KEY := Relay.XAI_API_KEY e;
     Relay.getUser := Relay.getUser e;
     Relay.generateText := Relay.generateText e;
     Relay.streamText := Relay.streamText e;
     Relay.decode := Relay.decode e;
     Relay.store := o |}.

(** The request reaches the check of the credential: it passes the method
    and configuration guards and the validation of [messages] and [model]
    that the handler performs first. *)
Record passes_validation (e : Relay.env) (req : request) (b : request_body) : Prop := {
  pv_method : method req = js "POST";
  pv_configured : configured e;
  pv_body : body req = Some b;
  pv_messages : nonempty_array (b_messages b) <> None;
  pv_model : Relay.model_truthy (Relay.languageModels_get (requested_model b)) = true
}.

(** The bearer credential is absent, or the identity verifier maps it to
    another subject than the one the request names, or to none. *)
Inductive credential_rejected (e : Relay.env) (req : request) (userId : jsval) : Prop :=
| credential_absent :
    present (bearer_token req) = false -> credential_rejected e req userId
| credential_of_other_subject (token subject : jsstring) (error : bool) :
    bearer_token req = Some token ->
    Relay.getUser e token = AuthReply (Some subject) error ->
    userId <> JStr subject ->
    credential_rejected e req userId
| credential_unverified (token : jsstring) :
    bearer_token req = Some token ->
    (forall subject, Relay.getUser e token <> AuthReply (Some subject) false) ->
    credential_rejected e req userId.

(** ** Further vocabulary *)

(** A code unit a title may hold: no markup character, and no whitespace
    other than the space that separates two words. *)
Definition title_unit (c : N) : bool :=
  negb (is_markup c) && (negb (is_js_space c) || (c =? 32)%N).

(** The provider fails the request before it has produced anything, in the
    mode asked for. *)
Definition provider_throws (e : Relay.env) (model : Relay.model_ref) (msgs : list jsval)
    (stream : bool) (error : js_error) : Prop :=
  if stream then Relay.streamText e model msgs = Throw error
  else Relay.generateText e model msgs = Throw error.

(** The terminal event of a stream: the sentinel or an inline error. *)
Definition terminal_event (ev : sse_event) : bool :=
  match ev with
  | DoneEvent | ErrorEvent _ => true
  | _ => false
  end.

(** The store and the provider saw nothing between two states. *)
Definition no_external_call (before after : world) : Prop :=
  provider_calls after = provider_calls before
  /\ store_trace after = store_trace before
  /\ chats after = chats before /\ messages after = messages before.

(** The store saw nothing between two states. *)
Definition store_untouched (before after : world) : Prop :=
  store_trace after = store_trace before
  /\ chats after = chats before /\ messages after = messages before.

(** ** A failing provider *)

Module Outage.

(** The provider of the sample deployment replaced by one that refuses a
    buffered completion and whose stream breaks after one fragment. *)
Definition relay_env : Relay.env :=
  {| Relay.SUPABASE_URL := Some (js "https://db.example");
     Relay.SUPABASE_SERVICE_ROLE_KEY := Some (js "service-key");
     Relay.XAI_API_KEY := Some (js "xai-key");
     Relay.getUser := Sample.verifier;
     Relay.generateText := fun _ _ => Throw (JsError (js "overloaded"));
     Relay.streamText := fun _ _ =>
       Normal {| Relay.chunks := [Relay.Bytes (js "Hel")];
                 Relay.failure := Some (JsError (js "socket closed")) |};
     Relay.decode := fun bytes => bytes;
     Relay.store := Sample.store_with_faults [] |}.

(** The request of ["alice"], authenticated, for a new session. *)
Definition request_of_alice (stream : jsval) : request :=
  Sample.post (Some "Bearer token-alice"%string)
    (Sample.chat_body None stream (JStr (js "alice")) JUndefined).

End Outage.

(** A text without a line feed. *)
Definition one_line (s : jsstring) : bool := forallb (fun c => negb (c =? 10)%N) s.

(** ** A store shared by two owners *)

Module Shared.

Definition chat_of_bob : chat_row :=
  {| c_id := JStr (js "c2"); c_user_id := js "bob"; c_title := js "Weekend plans" |}.

(** The session of ["alice"] of the sample deployment and one of ["bob"],
    each with one message. *)
Definition two_owners : world :=
  {| chats := chats Sample.one_session ++ [chat_of_bob];
     messages := messages Sample.one_session
                 ++ [row_of (JStr (js "c2")) (Sample.message "user" "Any ideas?")];
     store_trace := []; provider_calls := 0; console := [] |}.

Definition get (credential : option string) : request :=
  {| method := js "GET"; authorization := option_map js credential;
     body := None; query_sessionId := None |}.

End Shared.

(** A word a title is made of: more than two code units, none of them
    whitespace or markup. *)
Definition title_word (w : jsstring) : bool :=
  (2 <? length w) && forallb (fun c => negb (is_markup c) && negb (is_js_space c)) w.

(** ** The provider behind the [ai] SDK *)

Module Sdk.

(** The sample deployment with a provider whose stream yields strings, as
    the [textStream] of the SDK does: the buffered completion is ["Hello!"]
    and the streamed one its two halves. *)
Definition relay_env : Relay.env :=
  {| Relay.SUPABASE_URL := Some (js "https://db.example");
     Relay.SUPABASE_SERVICE_ROLE_KEY := Some (js "service-key");
     Relay.XAI_API_KEY := Some (js "xai-key");
     Relay.getUser := Sample.verifier;
     Relay.generateText := fun _ _ => Normal (js "Hello!");
     Relay.streamText := fun _ _ =>
       Normal {| Relay.chunks := [Relay.Text (js "Hel"); Relay.Text (js "lo!")];
                 Relay.failure := None |};
     Relay.decode := fun bytes => bytes;
     Relay.store := Sample.store_with_faults [] |}.

(** The sample deployment in front of an arbitrary provider. *)
Definition relay_in_front_of
    (generateText : Relay.model_ref -> list jsval -> completion jsstring)
    (streamText : Relay.model_ref -> list jsval -> completion Relay.text_stream)
    : Relay.env :=
  {| Relay.SUPABASE_URL := Some (js "https://db.example");
     Relay.SUPABASE_SERVICE_ROLE_KEY := Some (js "service-key");
     Relay.XAI_API_KEY := Some (js "xai-key");
     Relay.getUser := Sample.verifier;
     Relay.generateText := generateText;
     Relay.streamText := streamText;
     Relay.decode := fun bytes => bytes;
     Relay.store := Sample.store_with_faults [] |}.

End Sdk.

(** The stream of a request breaks: a read throws after every value was
    decoded, or the decoding of a value throws.  [fragments] are the texts
    decoded before that. *)
Inductive stream_breaks (e : Relay.env) (ts : Relay.text_stream)
    (fragments : list jsstring) (error : js_error) : Prop :=
| read_throws :
    map (Relay.TextDecoder_decode e) (Relay.chunks ts) = map (@Normal jsstring) fragments ->
    Relay.failure ts = Some error ->
    stream_breaks e ts fragments error
| decoding_throws (before after : list Relay.stream_value) (value : Relay.stream_value) :
    Relay.chunks ts = before ++ value :: after ->
    map (Relay.TextDecoder_decode e) before = map (@Normal jsstring) fragments ->
    Relay.TextDecoder_decode e value = Throw error ->
    stream_breaks e ts fragments error.

(** * Properties *)

(** ** Strings and JSON values *)

Lemma jsstring_eqb_eq (a b : jsstring) : jsstring_eqb a b = true <-> a = b.
Proof.
  revert b; induction a as [|x a IH]; destruct b as [|y b]; simpl;
    try (split; [discriminate | discriminate]); try tauto.
  rewrite andb_true_iff, N.eqb_eq, IH. split.
  - intros [-> ->]; reflexivity.
  - intros E; inversion E; auto.
Qed.

Lemma jsstring_eqb_refl (a : jsstring) : jsstring_eqb a a = true.
Proof. apply jsstring_eqb_eq; reflexivity. Qed.

Fixpoint jsval_eqb_refl (a : jsval) : jsval_eqb a a = true.
Proof.
  destruct a as [| |b|n|s|items|fields]; simpl; try reflexivity.
  - destruct b; reflexivity.
  - apply Z.eqb_refl.
  - apply jsstring_eqb_refl.
  - induction items as [|x xs IH]; [reflexivity|].
    rewrite (jsval_eqb_refl x). exact IH.
  - induction fields as [|[k x] xs IH]; [reflexivity|].
    rewrite jsstring_eqb_refl, (jsval_eqb_refl x). exact IH.
Qed.

Fixpoint jsval_eqb_eq (a b : jsval) {struct a} : jsval_eqb a b = true -> a = b.
Proof.
  destruct a as [| |x|x|x|xs|xs]; destruct b as [| |y|y|y|ys|ys]; simpl;
    try discriminate; try reflexivity.
  - intros H. apply Bool.eqb_prop in H. congruence.
  - intros H. apply Z.eqb_eq in H. congruence.
  - intros H. apply jsstring_eqb_eq in H. congruence.
  - intros H. f_equal. revert ys H.
    induction xs as [|x xs IH]; intros [|y ys] H; try discriminate; [reflexivity|].
    apply andb_true_iff in H. destruct H as [H1 H2].
    rewrite (jsval_eqb_eq x y H1), (IH ys H2). reflexivity.
  - intros H. f_equal. revert ys H.
    induction xs as [|[k x] xs IH]; intros [|[k' y] ys] H; try discriminate;
      [reflexivity|].
    apply andb_true_iff in H. destruct H as [H1 H2].
    apply andb_true_iff in H1. destruct H1 as [H0 H1].
    apply jsstring_eqb_eq in H0.
    rewrite H0, (jsval_eqb_eq x y H1), (IH ys H2). reflexivity.
Qed.

(** *** Agreement of the code with the specification's wording *)

Section TitleHeuristic.

Lemma ws_words_trimStart (s : jsstring) : ws_words (trimStart s) = ws_words s.
Proof.
  induction s as [|c s IH]; simpl; [reflexivity|].
  destruct (is_js_space c) eqn:E; [exact IH|].
  simpl. rewrite E. reflexivity.
Qed.

Lemma trimEnd_nil_words (s : jsstring) : trimEnd s = [] -> ws_words s = [].
Proof.
  induction s as [|c s IH]; simpl; [reflexivity|].
  destruct (trimEnd s) eqn:T; [|discriminate].
  destruct (is_js_space c); [intros _; apply IH; reflexivity | discriminate].
Qed.

Lemma trimEnd_head (s : jsstring) (d : N) (t : jsstring) :
  trimEnd s = d :: t -> exists s', s = d :: s'.
Proof.
  destruct s as [|c s]; simpl; [discriminate|].
  destruct (trimEnd s); [destruct (is_js_space c)|];
    intros E; inversion E; subst; eauto.
Qed.

Lemma ws_words_all_space (s : jsstring) :
  ws_words s = [] -> forall c, In c s -> is_js_space c = true.
Proof.
  induction s as [|c s IH]; simpl; [tauto|].
  destruct (is_js_space c) eqn:E.
  - intros H d [<-|Hd]; auto.
  - destruct s as [|c' s']; [discriminate|].
    destruct (is_js_space c'); [discriminate|].
    destruct (ws_words (c' :: s')); discriminate.
Qed.

Lemma ws_words_step (c d : N) (t : jsstring) :
  ws_words (c :: d :: t) =
  if is_js_space c then ws_words (d :: t)
  else if is_js_space d then [c] :: ws_words (d :: t)
  else match ws_words (d :: t) with
       | w :: ws => (c :: w) :: ws
       | [] => [[c]]
       end.
Proof. reflexivity. Qed.

Lemma ws_words_trimEnd (s : jsstring) : ws_words (trimEnd s) = ws_words s.
Proof.
  induction s as [|c s IH]; [reflexivity|].
  cbn [trimEnd].
  destruct (trimEnd s) as [|d t] eqn:T.
  - pose proof (trimEnd_nil_words s T) as W.
    destruct (is_js_space c) eqn:E.
    + cbn [ws_words]. rewrite E. symmetry; exact W.
    + cbn [ws_words]. rewrite E.
      destruct s as [|c' s']; [reflexivity|].
      rewrite (ws_words_all_space _ W c' (or_introl eq_refl)).
      rewrite W. reflexivity.
  - destruct (trimEnd_head s T) as [s' ->].
    rewrite !ws_words_step, IH. reflexivity.
Qed.

Lemma split_ws_nonnil (b : bool) (s : jsstring) : split_ws b s <> [].
Proof.
  revert b; induction s as [|c s IH]; intros b; simpl; [discriminate|].
  destruct (is_js_space c).
  - destruct b; [apply IH | discriminate].
  - destruct (split_ws false s); discriminate.
Qed.

Lemma split_ws_words (b : bool) (s : jsstring) :
  filter nonempty (split_ws b s) = ws_words s.
Proof.
  revert b; induction s as [|c s IH]; intros b; [reflexivity|].
  cbn [split_ws ws_words].
  destruct (is_js_space c) eqn:E.
  - destruct b; cbn [filter nonempty]; apply IH.
  - specialize (IH false).
    destruct s as [|c' s'].
    + reflexivity.
    + destruct (is_js_space c') eqn:E'.
      * cbn [split_ws] in *. rewrite E' in *.
        cbn [filter nonempty] in *. rewrite IH. reflexivity.
      * revert IH. cbn [split_ws]. rewrite E'.
        destruct (split_ws false s') as [|w ws]; cbn [filter nonempty];
          intros <-; reflexivity.
Qed.

Lemma filter_through (A : Type) (p q : A -> bool) (l : list A) :
  (forall x, p x = true -> q x = true) ->
  filter p (filter q l) = filter p l.
Proof.
  intros H; induction l as [|x l IH]; simpl; [reflexivity|].
  destruct (q x) eqn:Q; simpl.
  - rewrite IH; reflexivity.
  - destruct (p x) eqn:P; [rewrite (H _ P) in Q; discriminate | exact IH].
Qed.

Lemma long_words_of_split (s : jsstring) :
  filter (fun word => 2 <? length word) (split_ws false (trim s))
  = filter (fun w => negb (length w <=? 2)) (ws_words s).
Proof.
  rewrite <- (filter_through (fun word => 2 <? length word) nonempty).
  - rewrite split_ws_words. unfold trim.
    rewrite ws_words_trimEnd, ws_words_trimStart.
    apply filter_ext. intros w. rewrite Nat.leb_antisym, negb_involutive.
    reflexivity.
  - intros [|x w]; [discriminate | reflexivity].
Qed.

Lemma slice_min (A : Type) (l : list A) :
  firstn (Nat.min 3 (length l)) l = firstn 3 l.
Proof. destruct l as [|a [|b [|c l]]]; reflexivity. Qed.

Lemma join_space_nonnil (w : jsstring) (ws : list jsstring) :
  w <> [] -> join_space (w :: ws) <> [].
Proof.
  intros H. destruct ws; simpl; [exact H|].
  destruct w; [congruence | discriminate].
Qed.

(** The replacement of the code removes the characters the specification
    lists, and only them. *)
Lemma strip_markup_spec (content : jsstring) : strip_markup content = without_markup content.
Proof. reflexivity. Qed.

Lemma generateChatTitle_title_spec (content : jsstring) :
  generateChatTitle content = title_spec content.
Proof.
  unfold generateChatTitle, title_spec, substring0.
  rewrite long_words_of_split, slice_min, strip_markup_spec.
  fold (surviving_words content).
  destruct (surviving_words content) as [|w ws] eqn:F.
  - reflexivity.
  - assert (Hw : w <> []).
    { assert (I : In w (surviving_words content))
        by (rewrite F; left; reflexivity).
      apply filter_In in I. destruct I as [_ I]. intros ->. discriminate I. }
    cbv zeta. unfold jsstring in *.
    assert (Hj : join_space (firstn 3 (w :: ws)) <> [])
      by (apply join_space_nonnil; exact Hw).
    remember (join_space (firstn 3 (w :: ws))) as joined eqn:J.
    clear J. destruct (20 <? length joined).
    + destruct (firstn 17 joined); reflexivity.
    + destruct joined; [congruence | reflexivity].
Qed.

End TitleHeuristic.


(** ** The persistence step of the relay *)

Section Persistence.

Import Relay.

Lemma skipn_app_length (A : Type) (l l' : list A) : skipn (length l) (l ++ l') = l'.
Proof. induction l as [|x l IH]; [reflexivity | exact IH]. Qed.

Lemma valid_coercible (m : jsval) : valid_message m = true -> object_coercible m = true.
Proof. destruct m; try reflexivity; discriminate. Qed.

Lemma get_field_coercible (m : jsval) (k : string) :
  object_coercible m = true -> get_field m (js k) = Normal (field m k).
Proof.
  unfold field. destruct m; try discriminate; try reflexivity.
  intros _. simpl. destruct (own_property (js k) fields); reflexivity.
Qed.

Lemma to_row_coercible (id m : jsval) :
  object_coercible m = true -> to_row id m = Normal (row_of id m).
Proof.
  intros H. unfold to_row.
  rewrite (get_field_coercible m "role" H), (get_field_coercible m "content" H).
  reflexivity.
Qed.

Lemma to_rows_app (id : jsval) (ms : list jsval) (text : jsstring) :
  forallb valid_message ms = true ->
  to_rows id (ms ++ [assistant_message text])
  = Normal (map (row_of id) ms ++ [assistant_row id text]).
Proof.
  induction ms as [|m ms IH]; simpl; [reflexivity|].
  intros H. apply andb_true_iff in H. destruct H as [Hm Hms].
  rewrite (to_row_coercible id m (valid_coercible m Hm)), (IH Hms).
  reflexivity.
Qed.

Lemma find_user_valid (ms : list jsval) :
  forallb valid_message ms = true ->
  find_user ms = Normal (find has_user_role ms).
Proof.
  induction ms as [|m ms IH]; simpl; [reflexivity|].
  intros H. apply andb_true_iff in H. destruct H as [Hm Hms].
  rewrite (get_field_coercible m "role" (valid_coercible m Hm)).
  unfold has_user_role at 1.
  destruct (is_string (js "user") (field m "role")); [reflexivity | exact (IH Hms)].
Qed.

Lemma find_valid (ms : list jsval) (m : jsval) :
  forallb valid_message ms = true -> find has_user_role ms = Some m ->
  valid_message m = true.
Proof.
  intros H F. apply find_some in F. destruct F as [I _].
  rewrite forallb_forall in H. exact (H m I).
Qed.

Lemma valid_content (m : jsval) :
  valid_message m = true ->
  exists c, field m "content" = JStr c /\ c <> [].
Proof.
  unfold valid_message. intros H. apply andb_true_iff in H. destruct H as [_ H].
  destruct (field m "content") as [| | | |c| |]; try discriminate.
  exists c. split; [reflexivity|]. intros ->. discriminate.
Qed.

Lemma firstUserContent_valid (ms : list jsval) :
  forallb valid_message ms = true ->
  firstUserContent ms = Normal (JStr (first_user_text ms)).
Proof.
  intros H. unfold firstUserContent, first_user_text.
  rewrite (find_user_valid ms H).
  destruct (find has_user_role ms) as [m|] eqn:F; [|reflexivity].
  pose proof (find_valid ms H F) as Hm.
  rewrite (get_field_coercible m "content" (valid_coercible m Hm)).
  destruct (valid_content m Hm) as [c [-> Hc]].
  destruct c; [congruence | reflexivity].
Qed.

Lemma first_user_text_content (ms : list jsval) (m : jsval) :
  forallb valid_message ms = true -> find has_user_role ms = Some m ->
  field m "content" = JStr (first_user_text ms).
Proof.
  intros H F. unfold first_user_text. rewrite F.
  destruct (valid_content m (find_valid ms H F)) as [c [-> _]]. reflexivity.
Qed.

Lemma generateChatTitle_nonempty (content : jsstring) : generateChatTitle content <> [].
Proof.
  unfold generateChatTitle. cbv zeta.
  match goal with |- match ?t with _ => _ end <> _ => destruct t eqn:E end;
    discriminate.
Qed.

Lemma last_valid (ms : list jsval) :
  ms <> [] -> forallb valid_message ms = true ->
  object_coercible (last ms JUndefined) = true.
Proof.
  intros N H. apply valid_coercible.
  rewrite forallb_forall in H. apply H.
  destruct (exists_last N) as [l [a ->]]. rewrite last_last.
  apply in_or_app. right. left. reflexivity.
Qed.

Variable o : store_oracle.
Variable w : world.
Variable userId : jsstring.
Variable msgs : list jsval.
Variable generatedText : jsstring.
Variable chatId sessionTitle : jsval.

Let k := length (store_trace w).
Let newChatId := store_new_id o k.
Let title := generateChatTitle (first_user_text msgs).
Let created := {| c_id := newChatId; c_user_id := userId; c_title := title |}.

(** A new session saved without a fault. *)
Lemma save_new_session :
  truthy chatId = false -> forallb valid_message msgs = true ->
  store_fails o k = false -> store_fails o (S k) = false ->
  exists w',
    saveToSupabase o w userId msgs generatedText chatId sessionTitle
    = (Normal (newChatId, JStr title), w')
    /\ chats w' = chats w ++ [created]
    /\ messages w'
       = messages w ++ map (row_of newChatId) msgs ++ [assistant_row newChatId generatedText]
    /\ provider_calls w' = provider_calls w
    /\ map op (new_events w w')
       = [ InsertChat userId title;
           InsertMessages (map (row_of newChatId) msgs
                             ++ [assistant_row newChatId generatedText]) ].
Proof.
  intros Hc Hv F0 F1.
  unfold saveToSupabase, save_body. rewrite Hc. cbn [negb].
  rewrite (firstUserContent_valid msgs Hv).
  unfold insert_chat, store_call. fold k. rewrite F0. cbn [negb].
  rewrite (to_rows_app _ msgs generatedText Hv).
  unfold insert_messages, store_call. cbn [store_trace].
  rewrite length_app. cbn [length]. fold k.
  replace (k + 1) with (S k) by lia. rewrite F1. cbn [negb].
  eexists. split; [reflexivity|]. cbn.
  repeat split.
  unfold new_events. cbn [store_trace].
  rewrite <- app_assoc, skipn_app_length. reflexivity.
Qed.

(** An existing session continued without a fault. *)
Lemma save_existing_session :
  truthy chatId = true -> msgs <> [] -> forallb valid_message msgs = true ->
  store_fails o k = false ->
  exists w',
    saveToSupabase o w userId msgs generatedText chatId sessionTitle
    = (Normal (chatId, sessionTitle), w')
    /\ chats w' = chats w
    /\ messages w'
       = messages w ++ [ row_of chatId (last msgs JUndefined);
                         assistant_row chatId generatedText ]
    /\ provider_calls w' = provider_calls w
    /\ map op (new_events w w')
       = [ InsertMessages [ row_of chatId (last msgs JUndefined);
                            assistant_row chatId generatedText ] ].
Proof.
  intros Hc Hn Hv F0.
  unfold saveToSupabase, save_body. rewrite Hc. cbn [negb].
  rewrite (to_row_coercible chatId _ (last_valid Hn Hv)).
  unfold insert_messages, store_call. fold k. rewrite F0. cbn [negb].
  eexists. split; [reflexivity|]. cbn.
  repeat split.
  unfold new_events. cbn [store_trace]. rewrite skipn_app_length. reflexivity.
Qed.

(** The session row is created and the insert of the messages fails. *)
Lemma save_new_session_messages_fault :
  truthy chatId = false -> forallb valid_message msgs = true ->
  store_fails o k = false -> store_fails o (S k) = true ->
  exists w',
    saveToSupabase o w userId msgs generatedText chatId sessionTitle
    = (Throw (JsError (js "Failed to save messages")), w')
    /\ chats w' = chats w ++ [created]
    /\ messages w' = messages w.
Proof.
  intros Hc Hv F0 F1.
  unfold saveToSupabase, save_body. rewrite Hc. cbn [negb].
  rewrite (firstUserContent_valid msgs Hv).
  unfold insert_chat, store_call. fold k. rewrite F0. cbn [negb].
  rewrite (to_rows_app _ msgs generatedText Hv).
  unfold insert_messages, store_call. cbn [store_trace].
  rewrite length_app. cbn [length]. fold k.
  replace (k + 1) with (S k) by lia. rewrite F1. cbn [negb].
  eexists. split; [reflexivity|]. cbn. split; reflexivity.
Qed.

(** The session row cannot be created. *)
Lemma save_new_session_chat_fault :
  truthy chatId = false -> forallb valid_message msgs = true ->
  store_fails o k = true ->
  exists w',
    saveToSupabase o w userId msgs generatedText chatId sessionTitle
    = (Throw (JsError (js "Failed to create chat")), w')
    /\ chats w' = chats w /\ messages w' = messages w.
Proof.
  intros Hc Hv F0.
  unfold saveToSupabase, save_body. rewrite Hc. cbn [negb].
  rewrite (firstUserContent_valid msgs Hv).
  unfold insert_chat, store_call. fold k. rewrite F0. cbn [negb].
  eexists. split; [reflexivity|]. cbn. split; reflexivity.
Qed.

End Persistence.

(** ** The relay handler on valid requests *)

Section RelayHandler.

Import Relay.

Lemma own_value_truthy (model id : jsstring) :
  own_key model languageModels = Some id -> model_truthy (Some (ModelId id)) = true.
Proof.
  unfold languageModels. cbn [own_key].
  repeat match goal with
         | |- context [jsstring_eqb ?a model] => destruct (jsstring_eqb a model)
         end;
    intros E; inversion E; reflexivity.
Qed.

Lemma own_key_get (model id : jsstring) :
  own_key model languageModels = Some id ->
  languageModels_get model = Some (ModelId id).
Proof. unfold languageModels_get. intros ->. reflexivity. Qed.

Variable e : env.
Variable w : world.
Variable req : request.
Variable b : request_body.
Variable msgs : list jsval.
Variable id : jsstring.
Hypothesis valid : valid_request e req b msgs id.

Lemma handler_valid :
  handler e w req =
  match authenticate e w req (b_userId b) with
  | inl answer => answer
  | inr verifiedUserId =>
      if streaming b then respond_stream e w (ModelId id) msgs verifiedUserId (b_chatId b)
      else respond_buffered e w (ModelId id) msgs verifiedUserId (b_chatId b)
  end.
Proof.
  destruct valid as [Hm [Hu [Hk Hx]] Hb Hmsgs Hne _ Hmodel].
  unfold handler. rewrite Hm, jsstring_eqb_refl, Hu, Hk, Hx, Hb, Hmsgs.
  cbn [negb orb]. destruct msgs as [|m ms]; [congruence|].
  cbn [nonempty_array]. fold (requested_model b).
  rewrite (own_key_get _ Hmodel), (own_value_truthy _ Hmodel).
  cbn [negb]. reflexivity.
Qed.

Lemma authenticate_accepts (uid : jsstring) :
  authenticated e req b uid ->
  authenticate e w req (b_userId b) = inr (Some uid)
  /\ verified (Some uid) = Some uid.
Proof.
  intros [Hu [Hn [token [Ht [Hne Hg]]]]].
  unfold authenticate, verified. rewrite Hu. cbn [truthy].
  destruct uid as [|c uid]; [congruence|]. cbn [nonempty].
  rewrite Ht. destruct token as [|t token]; [congruence|]. cbn [nonempty negb].
  rewrite Hg. cbn [is_string orb]. rewrite jsstring_eqb_refl. split; reflexivity.
Qed.

End RelayHandler.

(** ** Persistence of an exchange *)

Section Exchange.

Import Relay.

Variable e : env.
Variable w : world.
Variable req : request.
Variable b : request_body.
Variable msgs : list jsval.
Variable model uid text : jsstring.

Let k := length (store_trace w).

(** C3.  A valid, authenticated, buffered request without a session
    identifier, completed by the provider and saved without a store fault:
    one session row is created, owned by the caller and titled by the
    heuristic applied to the content of the first [user] message; the
    request messages and the assistant reply, [len(messages)+1] rows, are
    inserted under the identifier the store issued; the response is 200
    with the completion, that identifier and the non-empty title. *)
Theorem new_session_saved_and_returned :
  valid_request e req b msgs model -> authenticated e req b uid ->
  streaming b = false -> truthy (b_chatId b) = false ->
  generateText e (ModelId model) msgs = Normal text ->
  store_fails (store e) k = false -> store_fails (store e) (S k) = false ->
  let newChatId := store_new_id (store e) k in
  let title := generateChatTitle (first_user_text msgs) in
  let rows := map (row_of newChatId) msgs ++ [assistant_row newChatId text] in
  exists w',
    handler e w req = (Json 200 (CompletionBody text newChatId (JStr title)), w')
    /\ chats w' = chats w ++ [{| c_id := newChatId; c_user_id := uid; c_title := title |}]
    /\ messages w' = messages w ++ rows
    /\ length rows = length msgs + 1
    /\ Forall (fun r => m_chat_id r = newChatId) rows
    /\ title <> []
    /\ (forall m, find has_user_role msgs = Some m ->
                  field m "content" = JStr (first_user_text msgs)).
Proof.
  intros V A Sm C G F0 F1 newChatId title rows.
  destruct (authenticate_accepts w A) as [Auth Ver].
  rewrite (handler_valid w V), Auth, Sm.
  unfold respond_buffered. rewrite G, Ver.
  destruct (@save_new_session (store e) (call_provider w) uid msgs text (b_chatId b)
              JNull C (vr_valid V) F0 F1) as [w' [Sv [Hc [Hm _]]]].
  rewrite Sv. exists w'. split; [reflexivity|].
  split; [exact Hc|]. split; [exact Hm|]. split.
  - unfold rows. rewrite length_app, length_map. reflexivity.
  - split; [|split].
    + unfold rows. apply Forall_app. split.
      * apply Forall_forall. intros r I. apply in_map_iff in I.
        destruct I as [m [<- _]]. reflexivity.
      * repeat constructor.
    + apply generateChatTitle_nonempty.
    + intros m. apply first_user_text_content. exact (vr_valid V).
Qed.

(** C4.  For a valid, authenticated request that names a session, the
    persistence step, whatever completion text it is given and in whatever
    state it starts, inserts without a store fault exactly two message rows
    in one call: the last message of the request and the assistant reply,
    both under the given identifier; it writes no session row and hands the
    identifier and the title back unchanged.  In buffered mode the handler
    runs that step on the provider's text and answers 200 with the text, the
    given identifier and no title. *)
Theorem existing_session_gets_two_rows :
  valid_request e req b msgs model -> authenticated e req b uid ->
  truthy (b_chatId b) = true ->
  let chatId := b_chatId b in
  let rows (generatedText : jsstring) :=
    [ row_of chatId (last msgs JUndefined); assistant_row chatId generatedText ] in
  (forall (w0 : world) (generatedText : jsstring) (sessionTitle : jsval),
      store_fails (store e) (length (store_trace w0)) = false ->
      exists w',
        saveToSupabase (store e) w0 uid msgs generatedText chatId sessionTitle
        = (Normal (chatId, sessionTitle), w')
        /\ map op (new_events w0 w') = [InsertMessages (rows generatedText)]
        /\ messages w' = messages w0 ++ rows generatedText
        /\ Forall (fun r => m_chat_id r = chatId) (rows generatedText)
        /\ chats w' = chats w0)
  /\ (streaming b = false ->
      generateText e (ModelId model) msgs = Normal text ->
      store_fails (store e) k = false ->
      exists w',
        handler e w req = (Json 200 (CompletionBody text chatId JNull), w')
        /\ map op (new_events w w') = [InsertMessages (rows text)]
        /\ messages w' = messages w ++ rows text
        /\ chats w' = chats w).
Proof.
  intros V A C chatId rows. split.
  - intros w0 generatedText sessionTitle F0.
    destruct (@save_existing_session (store e) w0 uid msgs generatedText
                (b_chatId b) sessionTitle C (vr_nonempty V) (vr_valid V) F0)
      as [w' [Sv [Hc [Hm [_ Ht]]]]].
    exists w'. split; [exact Sv|]. split; [exact Ht|]. split; [exact Hm|].
    split; [repeat constructor | exact Hc].
  - intros Sm G F0.
    destruct (authenticate_accepts w A) as [Auth Ver].
    rewrite (handler_valid w V), Auth, Sm.
    destruct (@save_existing_session (store e) (call_provider w) uid msgs text
                (b_chatId b) JNull C (vr_nonempty V) (vr_valid V) F0)
      as [w' [Sv [Hc [Hm [_ Ht]]]]].
    unfold respond_buffered. rewrite G, Ver, Sv.
    exists w'. split; [reflexivity|]. split; [exact Ht|]. split; [exact Hm | exact Hc].
Qed.

End Exchange.

Lemma new_session_saved_and_returned_witness :
  exists w',
    Relay.handler (Sample.relay_env []) Sample.empty_world
      (Sample.post (Some "Bearer token-alice"%string)
         (Sample.chat_body None (JBool false) (JStr (js "alice")) JUndefined))
    = (Json 200 (CompletionBody (js "Hello!") (JStr (js "chat-1"))
                   (JStr (js "Hello World from"))), w')
    /\ length (messages w') = 3 /\ length (chats w') = 1.
Proof.
  destruct (@new_session_saved_and_returned (Sample.relay_env []) Sample.empty_world
              (Sample.post (Some "Bearer token-alice"%string)
                 (Sample.chat_body None (JBool false) (JStr (js "alice")) JUndefined))
              (Sample.chat_body None (JBool false) (JStr (js "alice")) JUndefined)
              Sample.turns (js "grok-4-latest") (js "alice") (js "Hello!"))
    as [w' [H [Hc [Hm _]]]].
  - constructor; try reflexivity; [repeat split | discriminate].
  - split; [reflexivity|]. split; [discriminate|].
    exists (js "token-alice"). split; [reflexivity|]. split; [discriminate | reflexivity].
  - reflexivity.
  - reflexivity.
  - reflexivity.
  - reflexivity.
  - reflexivity.
  - exists w'. split; [exact H|]. rewrite Hm, Hc. split; reflexivity.
Defined.

Lemma existing_session_gets_two_rows_witness :
  exists w',
    Relay.handler (Sample.relay_env []) Sample.empty_world
      (Sample.post (Some "Bearer token-alice"%string)
         (Sample.chat_body (Some "grok-3"%string) (JBool false) (JStr (js "alice"))
            (JStr (js "chat-7"))))
    = (Json 200 (CompletionBody (js "Hello!") (JStr (js "chat-7")) JNull), w')
    /\ length (messages w') = 2 /\ chats w' = [].
Proof.
  destruct (@existing_session_gets_two_rows (Sample.relay_env []) Sample.empty_world
              (Sample.post (Some "Bearer token-alice"%string)
                 (Sample.chat_body (Some "grok-3"%string) (JBool false)
                    (JStr (js "alice")) (JStr (js "chat-7"))))
              (Sample.chat_body (Some "grok-3"%string) (JBool false) (JStr (js "alice"))
                 (JStr (js "chat-7")))
              Sample.turns (js "grok-3-latest") (js "alice") (js "Hello!"))
    as [_ H].
  - constructor; try reflexivity; [repeat split | discriminate].
  - split; [reflexivity|]. split; [discriminate|].
    exists (js "token-alice"). split; [reflexivity|]. split; [discriminate | reflexivity].
  - reflexivity.
  - destruct (H eq_refl eq_refl eq_refl) as [w' [R [_ [Hm Hc]]]].
    exists w'. split; [exact R|]. rewrite Hm, Hc. split; reflexivity.
Defined.

(** C10.  Creating a session is not atomic: when the insert of the session
    row succeeds and the insert of the message rows that follows fails,
    [saveToSupabase] throws while the session row it created stays in the
    store, and no message row was added for it. *)
Theorem session_creation_not_atomic
    (o : store_oracle) (w : world) (userId : jsstring) (msgs : list jsval)
    (generatedText : jsstring) (chatId sessionTitle : jsval) :
  truthy chatId = false -> forallb valid_message msgs = true ->
  store_fails o (length (store_trace w)) = false ->
  store_fails o (S (length (store_trace w))) = true ->
  let created := {| c_id := store_new_id o (length (store_trace w));
                    c_user_id := userId;
                    c_title := generateChatTitle (first_user_text msgs) |} in
  exists err w',
    Relay.saveToSupabase o w userId msgs generatedText chatId sessionTitle = (Throw err, w')
    /\ chats w' = chats w ++ [created]
    /\ In created (chats w')
    /\ messages w' = messages w
    /\ ((forall m, In m (messages w) -> m_chat_id m <> c_id created) ->
        filter (fun m => jsval_eqb (m_chat_id m) (c_id created)) (messages w') = []).
Proof.
  intros Hc Hv F0 F1 created.
  destruct (@save_new_session_messages_fault o w userId msgs generatedText chatId
              sessionTitle Hc Hv F0 F1) as [w' [Sv [Hch Hm]]].
  exists (JsError (js "Failed to save messages")), w'.
  split; [exact Sv|]. split; [exact Hch|]. split.
  - rewrite Hch. apply in_or_app. right. left. reflexivity.
  - split; [exact Hm|]. rewrite Hm. generalize (messages w).
    intros l. induction l as [|m ms IH]; intros Fresh; [reflexivity|].
    cbn [filter].
    destruct (jsval_eqb (m_chat_id m) (c_id created)) eqn:E.
    + exfalso. apply (Fresh m (or_introl eq_refl)).
      apply jsval_eqb_eq. exact E.
    + apply IH. intros m' I. apply Fresh. right. exact I.
Qed.

Lemma session_creation_not_atomic_witness :
  exists err w',
    Relay.saveToSupabase (Sample.store_with_faults [1]) Sample.empty_world (js "alice")
      Sample.turns (js "Hello!") JUndefined JNull = (Throw err, w')
    /\ length (chats w') = 1 /\ messages w' = [].
Proof.
  destruct (@session_creation_not_atomic (Sample.store_with_faults [1]) Sample.empty_world
              (js "alice") Sample.turns (js "Hello!") JUndefined JNull)
    as [err [w' [H [Hc [_ [Hm _]]]]]]; try reflexivity.
  exists err, w'. split; [exact H|]. rewrite Hc, Hm. split; reflexivity.
Defined.

(** ** Failures of the save *)

Section SaveFailures.

Import Relay.

Lemma read_stream_with_store (e : env) (o : store_oracle) (values : list stream_value)
    (failure : option js_error) :
  read_stream (with_store e o) values failure = read_stream e values failure.
Proof.
  induction values as [|value rest IH]; [reflexivity|].
  cbn [read_stream]. rewrite IH. destruct value; reflexivity.
Qed.

(** In incremental mode the response does not depend on the store: with
    any two stores behind the same deployment the handler answers the same
    request with the same status, events and closed connection. *)
Lemma stream_response_independent_of_store
    (e : env) (o1 o2 : store_oracle) (w : world) (req : request) (b : request_body) :
  body req = Some b -> streaming b = true ->
  fst (handler (with_store e o1) w req) = fst (handler (with_store e o2) w req).
Proof.
  intros Hb Hs. unfold handler. cbn [with_store SUPABASE_URL SUPABASE_SERVICE_ROLE_KEY
                                     XAI_API_KEY].
  destruct (negb (jsstring_eqb (method req) (js "POST"))); [reflexivity|].
  destruct (negb (present (SUPABASE_URL e)) || negb (present (SUPABASE_SERVICE_ROLE_KEY e))
            || negb (present (XAI_API_KEY e))); [reflexivity|].
  rewrite Hb. destruct (nonempty_array (b_messages b)) as [msgs|]; [|reflexivity].
  destruct (languageModels_get _) as [mv|]; [|reflexivity].
  destruct (negb (model_truthy (Some mv))); [reflexivity|].
  unfold authenticate. cbn [with_store getUser].
  fold (streaming b). rewrite Hs.
  assert (R : forall v c,
             fst (respond_stream (with_store e o1) w mv msgs v c)
             = fst (respond_stream (with_store e o2) w mv msgs v c)).
  { intros v c. unfold respond_stream. cbn [with_store streamText store].
    destruct (streamText e mv msgs) as [ts|err]; [|reflexivity].
    rewrite !read_stream_with_store.
    destruct (read_stream e (chunks ts) (failure ts)) as [fragments [err|]];
      reflexivity. }
  destruct (truthy (b_userId b)); [|apply R].
  destruct (bearer_token req) as [token|]; [|reflexivity].
  destruct (negb (nonempty token)); [reflexivity|].
  destruct (getUser e token) as [[id|] err|err]; try reflexivity.
  destruct (err || negb (is_string id (b_userId b))); [reflexivity | apply R].
Qed.

(** In buffered mode a save that throws replaces the completion by a 500
    response. *)
Lemma buffered_save_fault_gives_500
    (e : env) (w : world) (req : request) (b : request_body) (msgs : list jsval)
    (model uid text : jsstring) (err : js_error) (w' : world) :
  valid_request e req b msgs model -> authenticated e req b uid ->
  streaming b = false ->
  generateText e (ModelId model) msgs = Normal text ->
  saveToSupabase (store e) (call_provider w) uid msgs text (b_chatId b) JNull
  = (Throw err, w') ->
  fst (handler e w req)
  = Json 500 (ErrorBody (WithMessage (js "Failed to generate response: ") err)).
Proof.
  intros V A Sm G Sv.
  destruct (authenticate_accepts w A) as [Auth Ver].
  rewrite (handler_valid w V), Auth, Sm.
  unfold respond_buffered. rewrite G, Ver, Sv. reflexivity.
Qed.

End SaveFailures.

(** C1.  On the buffered path the claim fails: for the authenticated request
    of ["alice"] that starts a new session, the provider returns ["Hello!"];
    when the store is healthy the handler answers 200 with that text, and
    when the insert of the session row fails the handler answers 500
    ["Failed to generate response: Failed to create chat"] instead, although
    the completion had been computed. *)
Theorem buffered_save_fault_overrides_completion :
  let req := Sample.post (Some "Bearer token-alice"%string)
               (Sample.chat_body None (JBool false) (JStr (js "alice")) JUndefined) in
  Relay.generateText (Sample.relay_env [0]) (Relay.ModelId (js "grok-4-latest")) Sample.turns
  = Normal (js "Hello!")
  /\ fst (Relay.handler (Sample.relay_env []) Sample.empty_world req)
     = Json 200 (CompletionBody (js "Hello!") (JStr (js "chat-1"))
                   (JStr (js "Hello World from")))
  /\ fst (Relay.handler (Sample.relay_env [0]) Sample.empty_world req)
     = Json 500 (ErrorBody (WithMessage (js "Failed to generate response: ")
                              (JsError (js "Failed to create chat"))))
  /\ provider_calls (snd (Relay.handler (Sample.relay_env [0]) Sample.empty_world req)) = 1.
Proof. repeat split; vm_compute; reflexivity. Qed.

(** ** Validation of the model and of the credential *)

Section Validation.

Import Relay.

(** A model name that is neither a key of [languageModels] nor the name of
    a property the table inherits is refused with 400, and nothing is
    called. *)
Lemma unknown_model_rejected
    (e : env) (w : world) (req : request) (b : request_body) :
  method req = js "POST" -> configured e -> body req = Some b ->
  nonempty_array (b_messages b) <> None ->
  is_own_key (requested_model b) = false ->
  is_inherited (requested_model b) = false ->
  handler e w req
  = (Json 400 (ErrorBody (Lit (js "Invalid model: " ++ requested_model b))), w).
Proof.
  intros Hm [Hu [Hk Hx]] Hb Hmsgs Hown Hin.
  unfold handler. rewrite Hm, jsstring_eqb_refl, Hu, Hk, Hx, Hb.
  cbn [negb orb].
  destruct (nonempty_array (b_messages b)); [|congruence].
  fold (requested_model b). unfold languageModels_get.
  unfold is_own_key in Hown.
  destruct (own_key (requested_model b) languageModels); [discriminate|].
  rewrite Hin. reflexivity.
Qed.

Lemma rejected_credential_401
    (e : env) (w : world) (req : request) (userId : jsval) :
  truthy userId = true -> credential_rejected e req userId ->
  exists message w',
    authenticate e w req userId = inl (Json 401 (ErrorBody (Lit message)), w')
    /\ store_trace w' = store_trace w /\ chats w' = chats w
    /\ messages w' = messages w /\ provider_calls w' = provider_calls w.
Proof.
  intros Hu R. unfold authenticate. rewrite Hu.
  destruct R as [Habs | token subject error Ht Hg Hne | token Ht Hg].
  - unfold present in Habs. destruct (bearer_token req) as [token|].
    + rewrite Habs. cbn [negb]. eexists _, w. repeat split.
    + eexists _, w. repeat split.
  - rewrite Ht. destruct (negb (nonempty token)); [eexists _, w; repeat split|].
    rewrite Hg. replace (is_string subject userId) with false.
    + rewrite orb_true_r. eexists _, w. repeat split.
    + symmetry. destruct userId as [| | | |s| |]; try reflexivity.
      cbn [is_string]. destruct (jsstring_eqb s subject) eqn:E; [|reflexivity].
      apply jsstring_eqb_eq in E. congruence.
  - rewrite Ht. destruct (negb (nonempty token)); [eexists _, w; repeat split|].
    destruct (getUser e token) as [[id|] [|]|err] eqn:G;
      try (eexists _, _; repeat split; fail).
    + exfalso. exact (Hg id eq_refl).
Qed.

End Validation.

(** C7.  The claim fails on a model name that [languageModels] inherits:
    ["toString"] is not a key of the static mapping, yet
    [languageModels["toString"]] is a function, so the request is not
    refused: the provider is called once and the handler answers 200. *)
Theorem inherited_model_name_reaches_provider :
  let req := Sample.post None
               (Sample.chat_body (Some "toString"%string) (JBool false) JUndefined JUndefined) in
  Relay.is_own_key (js "toString") = false
  /\ fst (Relay.handler (Sample.relay_env []) Sample.empty_world req)
     = Json 200 (CompletionBody (js "Hello!") JUndefined JNull)
  /\ provider_calls (snd (Relay.handler (Sample.relay_env []) Sample.empty_world req)) = 1.
Proof. repeat split; vm_compute; reflexivity. Qed.

(** C8.  A request that names a [userId] and whose bearer credential is
    absent, or is not mapped to that subject by the identity verifier, is
    answered 401 once it has passed the validations that precede the
    credential check; the store is not called, its tables are unchanged and
    the provider is not called. *)
Theorem rejected_credential_is_401_without_persistence
    (e : Relay.env) (w : world) (req : request) (b : request_body) :
  passes_validation e req b ->
  truthy (b_userId b) = true ->
  credential_rejected e req (b_userId b) ->
  exists message w',
    Relay.handler e w req = (Json 401 (ErrorBody (Lit message)), w')
    /\ store_trace w' = store_trace w
    /\ chats w' = chats w /\ messages w' = messages w
    /\ provider_calls w' = provider_calls w.
Proof.
  intros [Hm [Hu [Hk Hx]] Hb Hmsgs Hmodel] Ht R.
  destruct (rejected_credential_401 w Ht R) as [message [w' [A P]]].
  exists message, w'. split; [|exact P].
  unfold Relay.handler. rewrite Hm, jsstring_eqb_refl, Hu, Hk, Hx, Hb.
  cbn [negb orb].
  destruct (nonempty_array (b_messages b)); [|congruence].
  fold (requested_model b).
  destruct (Relay.languageModels_get (requested_model b)) as [mv|]; [|discriminate].
  rewrite Hmodel. cbn [negb]. rewrite A. reflexivity.
Qed.

Lemma rejected_credential_is_401_without_persistence_witness :
  exists message w',
    Relay.handler (Sample.relay_env []) Sample.empty_world
      (Sample.post (Some "Bearer token-alice"%string)
         (Sample.chat_body None (JBool false) (JStr (js "bob")) JUndefined))
    = (Json 401 (ErrorBody (Lit message)), w')
    /\ store_trace w' = [] /\ provider_calls w' = 0.
Proof.
  destruct (@rejected_credential_is_401_without_persistence
              (Sample.relay_env []) Sample.empty_world
              (Sample.post (Some "Bearer token-alice"%string)
                 (Sample.chat_body None (JBool false) (JStr (js "bob")) JUndefined))
              (Sample.chat_body None (JBool false) (JStr (js "bob")) JUndefined))
    as [message [w' [H [Ht [_ [_ Hp]]]]]].
  - constructor; try reflexivity; [repeat split | discriminate].
  - reflexivity.
  - apply (@credential_of_other_subject _ _ _ (js "token-alice") (js "alice") false);
      [reflexivity | reflexivity | discriminate].
  - exists message, w'. split; [exact H|]. split; assumption.
Defined.

(** ** Incremental and buffered delivery *)

Section Delivery.

Import Relay.

Lemma authenticate_refusal (e : env) (w : world) (req : request) (userId : jsval)
    (r : response) (w' : world) :
  authenticate e w req userId = inl (r, w') -> status_of r = Some 401.
Proof.
  unfold authenticate.
  destruct (truthy userId); [|discriminate].
  destruct (bearer_token req) as [token|]; [|intros H; inversion H; reflexivity].
  destruct (negb (nonempty token)); [intros H; inversion H; reflexivity|].
  destruct (getUser e token) as [[id|] err|err];
    try (intros H; inversion H; reflexivity).
  destruct (err || negb (is_string id userId)); intros H; inversion H; reflexivity.
Qed.

End Delivery.

(** C6.  The claim fails on the stream that the [ai] SDK delivers.  The
    provider is deterministic: it completes the request with ["Hello!"],
    in one piece when buffered and as the strings ["Hel"] and ["lo!"] when
    streamed.  Buffered mode returns ["Hello!"].  In incremental mode
    [new TextDecoder().decode] throws on the first string, so the handler
    writes one error event and no [delta.content] at all: the fragments it
    forwarded concatenate to the empty text. *)
Theorem streamed_strings_are_not_forwarded :
  let request stream :=
    Sample.post None (Sample.chat_body None stream JUndefined JUndefined) in
  let model := Relay.ModelId (js "grok-4-latest") in
  let error := ErrorEvent (WithMessage (js "Stream failed: ") JsTypeError) in
  Relay.generateText Sdk.relay_env model Sample.turns = Normal (js "Hello!")
  /\ Relay.streamText Sdk.relay_env model Sample.turns
     = Normal {| Relay.chunks := [Relay.Text (js "Hel"); Relay.Text (js "lo!")];
                 Relay.failure := None |}
  /\ fst (Relay.handler Sdk.relay_env Sample.empty_world (request (JBool false)))
     = Json 200 (CompletionBody (js "Hello!") JUndefined JNull)
  /\ fst (Relay.handler Sdk.relay_env Sample.empty_world (request JUndefined))
     = EventStream 200 [error] true
  /\ delta_text [error] = []
  /\ delta_text [error] <> js "Hello!".
Proof. repeat split; try (vm_compute; reflexivity). discriminate. Qed.

(** ** Validation of the messages *)

(** C2, as stated, fails on the xAI relay: it checks that [messages] is a
    non-empty array and nothing about its elements.  A request whose only
    message has the role ["moderator"] is not answered 400: whatever the
    provider is, [generateText] is called with that message, once, and the
    handler answers with what the call gives, 200 with its text or 500 with
    its error. *)
Lemma relay_forwards_invalid_message :
  existsb (fun m => negb (valid_message m)) [Sample.message "moderator" "hi"] = true
  /\ forall generateText streamText (w : world),
       let e := Sdk.relay_in_front_of generateText streamText in
       let run := Relay.handler e w (Sample.post None Sample.odd_role_body) in
       status_of (fst run) <> Some 400
       /\ provider_calls (snd run) = S (provider_calls w)
       /\ fst run
          = match generateText (Relay.ModelId (js "grok-4-latest"))
                    [Sample.message "moderator" "hi"] with
            | Normal text => Json 200 (CompletionBody text JUndefined JNull)
            | Throw error =>
                Json 500 (ErrorBody (WithMessage (js "Failed to generate response: ")
                                       error))
            end.
Proof.
  split; [reflexivity|]. intros generateText streamText w e run.
  assert (R : run = Relay.respond_buffered e w (Relay.ModelId (js "grok-4-latest"))
                      [Sample.message "moderator" "hi"] None JUndefined)
    by reflexivity.
  rewrite R. unfold Relay.respond_buffered. cbn [Relay.generateText e Sdk.relay_in_front_of].
  destruct (generateText (Relay.ModelId (js "grok-4-latest"))
              [Sample.message "moderator" "hi"]) as [text|error];
    cbn [Relay.verified fst snd status_of provider_calls call_provider console_error];
    (split; [discriminate|]); split; reflexivity.
Qed.

Section GroqValidation.

Import GroqRelay.

Lemma is_role_enumeration (role : jsval) : is_role role = role_in_enumeration role.
Proof.
  unfold is_role, role_in_enumeration. cbn [existsb].
  rewrite orb_false_r, orb_assoc. reflexivity.
Qed.

Lemma role_check (role : jsval) :
  negb (truthy role) || negb (is_role role) = negb (role_in_enumeration role).
Proof.
  rewrite is_role_enumeration.
  destruct (role_in_enumeration role) eqn:E; [|apply orb_true_r].
  rewrite orb_false_r. destruct role as [| | | |s| |]; try discriminate E.
  destruct s; [discriminate E | reflexivity].
Qed.

Lemma content_check (content : jsval) :
  negb (truthy content) || negb (is_jsstr content) = negb (nonempty_text content).
Proof.
  destruct content as [| |[|]|n|s| |]; try reflexivity; cbn.
  - apply orb_true_r.
  - apply orb_false_r.
Qed.

Lemma validate_finds (msgs : list jsval) :
  forallb object_coercible msgs = true ->
  existsb (fun m => negb (valid_message m)) msgs = true ->
  forall i, exists invalid, validate i msgs = Normal (Some invalid).
Proof.
  induction msgs as [|m ms IH]; [discriminate|].
  cbn [forallb existsb validate]. intros Hc Hx i.
  apply andb_true_iff in Hc. destruct Hc as [Hm Hms].
  rewrite (get_field_coercible m "role" Hm), role_check.
  rewrite (get_field_coercible m "content" Hm), content_check.
  unfold valid_message in Hx.
  destruct (role_in_enumeration (field m "role")); cbn [negb andb] in *;
    [|eexists; reflexivity].
  destruct (nonempty_text (field m "content")); cbn [negb orb] in *;
    [|eexists; reflexivity].
  exact (IH Hms Hx (S i)).
Qed.

End GroqValidation.

(** C2, amended.  The Groq relay of [src/api/chat.js] answers 400, without
    calling the provider or changing anything, every [POST] request whose
    [messages] is an array without [null] entries in which some message has
    a role outside the enumeration or a content that is not a non-empty
    string. *)
Theorem groq_relay_rejects_invalid_message
    (e : GroqRelay.env) (w : world) (req : request) (b : request_body) (msgs : list jsval) :
  method req = js "POST" -> body req = Some b -> b_messages b = JArr msgs ->
  forallb object_coercible msgs = true ->
  existsb (fun m => negb (valid_message m)) msgs = true ->
  exists invalid,
    GroqRelay.handler e w req = (Json 400 (ErrorBody invalid), w)
    /\ provider_calls (snd (GroqRelay.handler e w req)) = provider_calls w.
Proof.
  intros Hm Hb Hmsgs Hc Hx.
  destruct (validate_finds msgs Hc Hx 0) as [invalid Hv].
  exists invalid.
  assert (H : GroqRelay.handler e w req = (Json 400 (ErrorBody invalid), w)).
  { unfold GroqRelay.handler. rewrite Hm, jsstring_eqb_refl, Hb, Hmsgs. cbn [negb].
    destruct msgs as [|m ms]; [discriminate Hx|].
    cbn [nonempty_array]. rewrite Hv. reflexivity. }
  rewrite H. split; reflexivity.
Qed.

Lemma groq_relay_rejects_invalid_message_witness :
  exists invalid,
    GroqRelay.handler Sample.groq_env Sample.empty_world
      (Sample.post None Sample.odd_role_body)
    = (Json 400 (ErrorBody invalid), Sample.empty_world).
Proof.
  destruct (@groq_relay_rejects_invalid_message Sample.groq_env Sample.empty_world
              (Sample.post None Sample.odd_role_body) Sample.odd_role_body
              [Sample.message "moderator" "hi"])
    as [invalid [H _]]; try reflexivity.
  exists invalid. exact H.
Defined.

(** ** Order of deletion *)

Section Deletion.

Lemma new_events_none (w : world) : new_events w w = [].
Proof. unfold new_events. apply skipn_all. Qed.

Lemma reject_In (A : Type) (p : A -> bool) (l : list A) (x : A) :
  In x (reject p l) <-> In x l /\ p x = false.
Proof.
  unfold reject. rewrite filter_In, negb_true_iff. reflexivity.
Qed.

Variable cs : list chat_row.
Variable ms : list message_row.
Hypothesis sound : orphan_free cs ms.

Lemma orphan_free_fewer_messages (p : message_row -> bool) :
  orphan_free cs (reject p ms).
Proof.
  intros m I. apply reject_In in I. destruct I as [I _]. exact (sound m I).
Qed.

Lemma orphan_free_delete_chat (id : jsstring) :
  orphan_free (reject (chat_has_id id) cs) (reject (message_of_chat id) ms).
Proof.
  intros m I. apply reject_In in I. destruct I as [I P].
  destruct (sound m I) as [c [Ic E]]. exists c. split; [|exact E].
  apply reject_In. split; [exact Ic|].
  unfold chat_has_id. rewrite E. exact P.
Qed.

Lemma orphan_free_delete_user (user_id : jsstring) :
  orphan_free (reject (chat_of_user user_id) cs)
    (reject (message_of_chats (map c_id (filter (chat_of_user user_id) cs))) ms).
Proof.
  intros m I. apply reject_In in I. destruct I as [I P].
  destruct (sound m I) as [c [Ic E]]. exists c. split; [|exact E].
  apply reject_In. split; [exact Ic|].
  destruct (chat_of_user user_id c) eqn:U; [|reflexivity].
  exfalso. unfold message_of_chats in P.
  assert (X : existsb (jsval_eqb (m_chat_id m))
                (map c_id (filter (chat_of_user user_id) cs)) = true).
  { apply existsb_exists. exists (c_id c). split.
    - apply in_map. apply filter_In. split; assumption.
    - rewrite E. apply jsval_eqb_refl. }
  congruence.
Qed.

End Deletion.

(** C9, as stated, fails on the handler of [src/api/chat-history.js]: its
    deletion of a session issues one call to the store, the delete of the
    session row, and no delete of message rows before it. *)
Lemma legacy_delete_issues_no_message_delete :
  let run := LegacyHistory.handler Sample.legacy_env Sample.one_session
               (Sample.delete (Some "Bearer token-alice"%string) (Some "c1"%string)) in
  fst run = Json 200 SuccessBody
  /\ map op (new_events Sample.one_session (snd run))
     = [DeleteOwnedChat (js "c1") (js "alice")]
  /\ messages_first false (map op (new_events Sample.one_session (snd run))) = false.
Proof. repeat split; vm_compute; reflexivity. Qed.

(** C9, amended.  In [handleDelete] of [src/New api/chat-history.js], for a
    single session and for all the sessions of an owner alike, every call
    that deletes session rows comes after a call that deleted the message
    rows; starting from a store without orphan messages, the tables have no
    message without its parent session after any call of the handler, nor
    at its end. *)
Theorem handleDelete_deletes_messages_first
    (e : History.env) (w : world) (req : request) :
  orphan_free (chats w) (messages w) ->
  let w' := snd (History.handleDelete e w req) in
  messages_first false (map op (new_events w w')) = true
  /\ Forall (fun ev => orphan_free (chats_after ev) (messages_after ev)) (new_events w w')
  /\ orphan_free (chats w') (messages w').
Proof.
  intros sound.
  pose proof (orphan_free_fewer_messages sound) as Hfewer.
  pose proof (orphan_free_delete_chat sound) as Hchat.
  pose proof (orphan_free_delete_user sound) as Huser.
  unfold History.handleDelete, History.failed, select_chat, select_chat_ids,
    delete_messages_of_chat, delete_messages_of_chats, delete_chat,
    delete_chats_of_user, store_call, console_error.
  repeat match goal with
         | |- context [if ?c then _ else _] => destruct c eqn:?
         | |- context [match ?c with _ => _ end] => destruct c eqn:?
         end;
    cbn [snd fst negb chats messages store_trace console_error] in *;
    try discriminate;
    unfold new_events; cbn [store_trace];
    rewrite <- ?app_assoc, ?skipn_app_length, ?skipn_all;
    cbn [map op app messages_first deletes_chats deletes_messages orb andb
         chats_after messages_after];
    (split; [reflexivity|]); (split; [repeat constructor|]);
    cbn [chats_after messages_after]; auto;
    match goal with
    | H : map c_id _ = _ |- _ => rewrite <- H; apply Huser
    end.
Qed.

Lemma handleDelete_deletes_messages_first_witness :
  let w' := snd (History.handleDelete Sample.history_env Sample.one_session
                   (Sample.delete (Some "Bearer token-alice"%string) (Some "c1"%string))) in
  map op (new_events Sample.one_session w')
  = [ SelectChat (js "c1") (js "alice"); DeleteMessagesOfChat (js "c1");
      DeleteChat (js "c1") ]
  /\ messages_first false (map op (new_events Sample.one_session w')) = true
  /\ orphan_free (chats w') (messages w').
Proof.
  split; [vm_compute; reflexivity|].
  destruct (@handleDelete_deletes_messages_first Sample.history_env Sample.one_session
              (Sample.delete (Some "Bearer token-alice"%string) (Some "c1"%string)))
    as [H [_ Ho]].
  - intros m [<-|[]]. eexists. split; [left; reflexivity | reflexivity].
  - split; [exact H | exact Ho].
Defined.


(** * Further properties of the code *)

(** ** The title heuristic *)

Section TitleShape.

Lemma forallb_firstn (A : Type) (p : A -> bool) (n : nat) (l : list A) :
  forallb p l = true -> forallb p (firstn n l) = true.
Proof.
  revert n; induction l as [|x l IH]; intros [|n]; simpl; try reflexivity.
  intros H. apply andb_true_iff in H. destruct H as [-> H]. exact (IH n H).
Qed.

Lemma forallb_filter (A : Type) (p q : A -> bool) (l : list A) :
  forallb p l = true -> forallb p (filter q l) = true.
Proof.
  induction l as [|x l IH]; simpl; [reflexivity|].
  intros H. apply andb_true_iff in H. destruct H as [Hx H].
  destruct (q x); simpl; [rewrite Hx|]; exact (IH H).
Qed.

Lemma forallb_join_space (p : N -> bool) (ws : list jsstring) :
  p 32%N = true -> forallb (forallb p) ws = true ->
  forallb p (join_space ws) = true.
Proof.
  intros Hs. induction ws as [|w ws IH]; [reflexivity|].
  cbn [forallb]. intros H. apply andb_true_iff in H. destruct H as [Hw H].
  destruct ws as [|w' ws']; [exact Hw|].
  change (join_space (w :: w' :: ws')) with (w ++ 32%N :: join_space (w' :: ws')).
  rewrite forallb_app, Hw. cbn [forallb andb]. rewrite Hs. exact (IH H).
Qed.

(** The words of a text hold its code units that are not whitespace. *)
Lemma ws_words_units (p : N -> bool) (s : jsstring) :
  forallb p s = true ->
  forallb (forallb (fun c => p c && negb (is_js_space c))) (ws_words s) = true.
Proof.
  induction s as [|c s IH]; [reflexivity|].
  intros H. cbn [forallb] in H. apply andb_true_iff in H. destruct H as [Hc H].
  specialize (IH H). destruct s as [|d t].
  - cbn. destruct (is_js_space c) eqn:E; [reflexivity|].
    cbn. rewrite Hc, E. reflexivity.
  - rewrite ws_words_step.
    destruct (is_js_space c) eqn:E; [exact IH|].
    destruct (is_js_space d) eqn:E'.
    + cbn [forallb]. rewrite Hc, E, IH. reflexivity.
    + destruct (ws_words (d :: t)) as [|w ws].
      * cbn. rewrite Hc, E. reflexivity.
      * cbn [forallb] in *. rewrite Hc, E. exact IH.
Qed.

Lemma strip_markup_units (s : jsstring) :
  forallb (fun c => negb (is_markup c)) (strip_markup s) = true.
Proof.
  unfold strip_markup. induction s as [|c s IH]; [reflexivity|].
  cbn [filter]. destruct (negb (is_markup c)) eqn:E; [|exact IH].
  cbn [forallb]. rewrite E. exact IH.
Qed.

Lemma word_units_title (w : jsstring) :
  forallb (fun c => negb (is_markup c) && negb (is_js_space c)) w = true ->
  forallb title_unit w = true.
Proof.
  induction w as [|c w IH]; [reflexivity|].
  cbn [forallb]. intros H. apply andb_true_iff in H. destruct H as [Hc H].
  apply andb_true_iff in Hc. destruct Hc as [Hm Hs].
  unfold title_unit at 1. rewrite Hm, Hs. exact (IH H).
Qed.

Lemma joined_units (content : jsstring) :
  forallb title_unit (join_space (firstn 3 (surviving_words content))) = true.
Proof.
  apply forallb_join_space; [reflexivity|].
  apply forallb_firstn. unfold surviving_words. apply forallb_filter.
  pose proof (ws_words_units _ _ (strip_markup_units content)) as H.
  rewrite strip_markup_spec in H.
  induction (ws_words (without_markup content)) as [|w ws IH]; [reflexivity|].
  cbn [forallb] in *. apply andb_true_iff in H. destruct H as [Hw H].
  rewrite (word_units_title w Hw). exact (IH H).
Qed.

End TitleShape.

(** X1.  Whatever the text, the title has between 1 and 20 code units. *)
Theorem generateChatTitle_length (content : jsstring) :
  1 <= length (generateChatTitle content) <= 20.
Proof.
  split.
  - pose proof (generateChatTitle_nonempty content) as H.
    destruct (generateChatTitle content); [congruence | simpl; lia].
  - rewrite generateChatTitle_title_spec. unfold title_spec.
    destruct (surviving_words content) as [|w ws]; [cbn; lia|].
    destruct (20 <? length (join_space (firstn 3 (w :: ws)))) eqn:E.
    + apply Nat.ltb_lt in E.
      rewrite length_app, firstn_length_le by lia. cbn. lia.
    + apply Nat.ltb_ge in E. exact E.
Qed.

(** No code unit of a title is one of the markup characters that the
    heuristic strips, and none is a whitespace other than a space. *)
Lemma generateChatTitle_units (content : jsstring) :
  forallb title_unit (generateChatTitle content) = true.
Proof.
  rewrite generateChatTitle_title_spec. unfold title_spec.
  pose proof (joined_units content) as H.
  destruct (surviving_words content) as [|w ws]; [reflexivity|].
  destruct (20 <? length (join_space (firstn 3 (w :: ws)))); [|exact H].
  rewrite forallb_app, (forallb_firstn _ 17 _ H). reflexivity.
Qed.

(** ** What [saveToSupabase] does to the store *)

Section SaveEffects.

Import Relay.

Lemma to_row_tagged (id m : jsval) (r : message_row) :
  to_row id m = Normal r -> m_chat_id r = id.
Proof.
  unfold to_row. destruct (get_field m (js "role")); [|discriminate].
  destruct (get_field m (js "content")); [|discriminate].
  intros H. inversion H. reflexivity.
Qed.

Lemma to_rows_assistant (id : jsval) (text : jsstring) (ms : list jsval)
    (rs : list message_row) :
  to_rows id (ms ++ [assistant_message text]) = Normal rs ->
  exists earlier, rs = earlier ++ [assistant_row id text]
                  /\ Forall (fun r => m_chat_id r = id) earlier.
Proof.
  revert rs; induction ms as [|m ms IH]; intros rs.
  - cbn. intros H. inversion H. exists []. split; [reflexivity | constructor].
  - cbn [app to_rows]. destruct (to_row id m) as [r|] eqn:R; [|discriminate].
    destruct (to_rows id (ms ++ [assistant_message text])) as [rs'|]; [|discriminate].
    intros H. inversion H. subst rs. destruct (IH rs' eq_refl) as [earlier [-> F]].
    exists (r :: earlier). split; [reflexivity|].
    constructor; [exact (to_row_tagged _ _ R) | exact F].
Qed.

End SaveEffects.

(** Case analysis on the innermost test of the goal. *)
Ltac innermost_case :=
  match goal with
  | |- context [match ?c with _ => _ end] =>
      lazymatch c with
      | context [match _ with _ => _ end] => fail
      | _ => destruct c eqn:?
      end
  end.

Ltac save_cases :=
  unfold Relay.saveToSupabase, Relay.save_body, insert_chat, insert_messages,
    store_call, console_error;
  repeat (innermost_case; cbn [fst snd negb]);
  cbn [fst snd negb chats messages store_trace provider_calls console] in *;
  try discriminate.

(** X3.  [saveToSupabase] only appends: whatever it is given and whatever
    the store answers, the rows that were in the two tables stay, in their
    order, at most one session row is added, the store is called at most
    twice and the provider not at all. *)
Theorem saveToSupabase_appends
    (o : store_oracle) (w : world) (userId : jsstring) (msgs : list jsval)
    (generatedText : jsstring) (chatId sessionTitle : jsval) :
  let w' := snd (Relay.saveToSupabase o w userId msgs generatedText chatId sessionTitle) in
  exists cs ms evs,
    chats w' = chats w ++ cs /\ messages w' = messages w ++ ms
    /\ store_trace w' = store_trace w ++ evs
    /\ length cs <= 1 /\ length evs <= 2
    /\ provider_calls w' = provider_calls w.
Proof.
  cbv zeta. save_cases;
    rewrite <- ?app_assoc;
    eexists _, _, _;
    (split; [first [reflexivity | symmetry; apply app_nil_r]|]);
    (split; [first [reflexivity | symmetry; apply app_nil_r]|]);
    (split; [first [reflexivity | symmetry; apply app_nil_r]|]);
    cbn [length app]; repeat split; lia.
Qed.

(** X4.  When [saveToSupabase] returns, the assistant reply is the last row
    of the messages table, stored under the session identifier it returns
    like every row it added, and nothing was written to the console.  For a
    given session the identifier and the title are handed back unchanged and
    no session row is written; otherwise one session row is added, owned by
    the caller and carrying the returned, non-empty title. *)
Theorem saveToSupabase_returns
    (o : store_oracle) (w : world) (userId : jsstring) (msgs : list jsval)
    (generatedText : jsstring) (chatId sessionTitle : jsval)
    (newChatId title : jsval) (w' : world) :
  Relay.saveToSupabase o w userId msgs generatedText chatId sessionTitle
  = (Normal (newChatId, title), w') ->
  (exists earlier,
      messages w' = messages w ++ earlier ++ [assistant_row newChatId generatedText]
      /\ Forall (fun r => m_chat_id r = newChatId) earlier)
  /\ console w' = console w
  /\ (if truthy chatId
      then newChatId = chatId /\ title = sessionTitle /\ chats w' = chats w
      else exists t, title = JStr t /\ t <> []
                     /\ chats w' = chats w ++ [{| c_id := newChatId; c_user_id := userId;
                                                  c_title := t |}]).
Proof.
  save_cases; intros H; inversion H; subst; clear H;
    cbn [chats messages console].
  - match goal with
    | R : Relay.to_rows _ _ = Normal _ |- _ =>
        destruct (to_rows_assistant _ _ _ R) as [earlier [-> F]]
    end.
    split; [exists earlier; split; [reflexivity | exact F]|].
    split; [reflexivity|].
    eexists. split; [reflexivity|]. split; [apply generateChatTitle_nonempty | reflexivity].
  - split.
    + eexists [_]. split; [reflexivity|]. constructor; [|constructor].
      match goal with
      | R : Relay.to_row _ _ = Normal _ |- _ => exact (to_row_tagged _ _ R)
      end.
    + repeat split.
Qed.

(** X5.  When [saveToSupabase] throws, no message row was inserted, the
    exception is the last thing written to the console, and a save into a
    given session has not changed the sessions either. *)
Theorem saveToSupabase_throws
    (o : store_oracle) (w : world) (userId : jsstring) (msgs : list jsval)
    (generatedText : jsstring) (chatId sessionTitle : jsval)
    (error : js_error) (w' : world) :
  Relay.saveToSupabase o w userId msgs generatedText chatId sessionTitle
  = (Throw error, w') ->
  messages w' = messages w
  /\ (truthy chatId = true -> chats w' = chats w)
  /\ exists lines,
       console w'
       = console w ++ lines ++ [{| log_tag := js "Error in saveToSupabase:";
                                   log_error := Some error |}].
Proof.
  save_cases; intros H; inversion H; subst; clear H;
    cbn [chats messages console];
    (split; [reflexivity|]);
    (split;
     [intros Ht;
      first [ reflexivity
            | match goal with
              | Hn : negb (truthy _) = true |- _ => rewrite Ht in Hn; discriminate Hn
              end ]|]);
    rewrite <- ?app_assoc;
    first [ exists []; reflexivity | eexists [_]; reflexivity ].
Qed.

(** X6.  A new session whose messages are valid but none of which has the
    role [user] is titled ["New chat"]. *)
Theorem session_without_user_message_is_New_chat
    (o : store_oracle) (w : world) (userId : jsstring) (msgs : list jsval)
    (generatedText : jsstring) (chatId sessionTitle : jsval) :
  truthy chatId = false -> forallb valid_message msgs = true ->
  find has_user_role msgs = None ->
  store_fails o (length (store_trace w)) = false ->
  store_fails o (S (length (store_trace w))) = false ->
  fst (Relay.saveToSupabase o w userId msgs generatedText chatId sessionTitle)
  = Normal (store_new_id o (length (store_trace w)), JStr (js "New chat")).
Proof.
  intros Hc Hv Hf F0 F1.
  destruct (@save_new_session o w userId msgs generatedText chatId sessionTitle
              Hc Hv F0 F1) as [w' [H _]].
  rewrite H. unfold first_user_text. rewrite Hf. reflexivity.
Qed.

Lemma saveToSupabase_returns_witness :
  exists earlier,
    messages (snd (Relay.saveToSupabase (Sample.store_with_faults []) Sample.one_session
                     (js "alice") Sample.turns (js "Hello!") (JStr (js "c1")) JNull))
    = messages Sample.one_session ++ earlier ++ [assistant_row (JStr (js "c1")) (js "Hello!")]
    /\ Forall (fun r => m_chat_id r = JStr (js "c1")) earlier.
Proof.
  exact (proj1 (@saveToSupabase_returns (Sample.store_with_faults []) Sample.one_session
                  (js "alice") Sample.turns (js "Hello!") (JStr (js "c1")) JNull
                  (JStr (js "c1")) JNull _ eq_refl)).
Defined.

Lemma saveToSupabase_throws_witness :
  messages (snd (Relay.saveToSupabase (Sample.store_with_faults [0]) Sample.one_session
                   (js "alice") Sample.turns (js "Hello!") (JStr (js "c1")) JNull))
  = messages Sample.one_session.
Proof.
  exact (proj1 (@saveToSupabase_throws (Sample.store_with_faults [0]) Sample.one_session
                  (js "alice") Sample.turns (js "Hello!") (JStr (js "c1")) JNull
                  (JsError (js "Failed to append messages")) _ eq_refl)).
Defined.

Lemma session_without_user_message_is_New_chat_witness :
  fst (Relay.saveToSupabase (Sample.store_with_faults []) Sample.empty_world (js "alice")
         [Sample.message "system" "Be brief."] (js "Hello!") JUndefined JNull)
  = Normal (JStr (js "chat-1"), JStr (js "New chat")).
Proof.
  apply (@session_without_user_message_is_New_chat (Sample.store_with_faults [])
           Sample.empty_world (js "alice") [Sample.message "system" "Be brief."]
           (js "Hello!") JUndefined JNull); reflexivity.
Defined.

(** ** The relay handler on arbitrary requests *)

Section RelayRuns.

Import Relay.

Variable e : env.
Variable w : world.

Lemma save_effects (uid : jsstring) (msgs : list jsval) (text : jsstring)
    (chatId title : jsval) (w0 : world) :
  let w' := snd (saveToSupabase (store e) w0 uid msgs text chatId title) in
  provider_calls w' = provider_calls w0
  /\ length (store_trace w') <= length (store_trace w0) + 2.
Proof.
  cbv zeta.
  destruct (saveToSupabase_appends (store e) w0 uid msgs text chatId title)
    as [cs [ms [evs [_ [_ [Ht [_ [Hl Hp]]]]]]]].
  split; [exact Hp|]. rewrite Ht, length_app. lia.
Qed.

Lemma respond_stream_run (model : model_ref) (msgs : list jsval)
    (v : option jsstring) (chatId : jsval) :
  let run := respond_stream e w model msgs v chatId in
  (status_of (fst run) = Some 200 \/ status_of (fst run) = Some 500)
  /\ provider_calls (snd run) = S (provider_calls w)
  /\ length (store_trace (snd run)) <= length (store_trace w) + 2.
Proof.
  cbv zeta. unfold respond_stream.
  destruct (streamText e model msgs) as [ts|err]; [|cbn; auto with arith].
  destruct (read_stream e (chunks ts) (failure ts)) as [fragments [err|]];
    [cbn; auto with arith|].
  destruct (verified v) as [uid|]; [|cbn; auto with arith].
  pose proof (save_effects uid msgs (concat fragments) chatId JNull
                (call_provider w)) as [Hp Hl].
  destruct (saveToSupabase _ _ _ _ _ _ _) as [[r|err] w1]; cbn in *;
    (split; [auto|]); split; assumption.
Qed.

Lemma respond_buffered_run (model : model_ref) (msgs : list jsval)
    (v : option jsstring) (chatId : jsval) :
  let run := respond_buffered e w model msgs v chatId in
  (status_of (fst run) = Some 200 \/ status_of (fst run) = Some 500)
  /\ provider_calls (snd run) = S (provider_calls w)
  /\ length (store_trace (snd run)) <= length (store_trace w) + 2.
Proof.
  cbv zeta. unfold respond_buffered.
  destruct (generateText e model msgs) as [text|err]; [|cbn; auto with arith].
  destruct (verified v) as [uid|]; [|cbn; auto with arith].
  pose proof (save_effects uid msgs text chatId JNull (call_provider w)) as [Hp Hl].
  destruct (saveToSupabase _ _ _ _ _ _ _) as [[[i t]|err] w1]; cbn in *;
    (split; [auto|]); split; assumption.
Qed.

Lemma authenticate_quiet (req : request) (userId : jsval) (r : response) (w' : world) :
  authenticate e w req userId = inl (r, w') ->
  status_of r = Some 401 /\ no_external_call w w'.
Proof.
  intros H. split; [exact (authenticate_refusal _ _ _ _ H)|].
  revert H. unfold authenticate.
  destruct (truthy userId); [|discriminate].
  destruct (bearer_token req) as [token|];
    [|intros H; inversion H; repeat split].
  destruct (negb (nonempty token)); [intros H; inversion H; repeat split|].
  destruct (getUser e token) as [[id|] err|err];
    try solve [intros H; inversion H; repeat split].
  destruct (err || negb (is_string id userId)); intros H; inversion H; repeat split.
Qed.

Lemma authenticate_refusal_is_json (req : request) (userId : jsval) (r : response)
    (w' : world) :
  authenticate e w req userId = inl (r, w') ->
  exists message, r = Json 401 (ErrorBody (Lit message)).
Proof.
  unfold authenticate.
  destruct (truthy userId); [|discriminate].
  destruct (bearer_token req) as [token|];
    [|intros H; inversion H; eexists; reflexivity].
  destruct (negb (nonempty token)); [intros H; inversion H; eexists; reflexivity|].
  destruct (getUser e token) as [[id|] err|err];
    try solve [intros H; inversion H; eexists; reflexivity].
  destruct (err || negb (is_string id userId)); intros H; inversion H;
    eexists; reflexivity.
Qed.

End RelayRuns.

(** The cases of a run of the relay handler, down to the two delivery
    branches. *)
Ltac relay_cases e w req :=
  unfold Relay.handler;
  destruct (negb (jsstring_eqb (method req) (js "POST")));
  [|destruct (negb (present (Relay.SUPABASE_URL e))
              || negb (present (Relay.SUPABASE_SERVICE_ROLE_KEY e))
              || negb (present (Relay.XAI_API_KEY e)));
    [|destruct (body req) as [b|] eqn:Hbody;
      [destruct (nonempty_array (b_messages b)) as [msgs|];
       [destruct (Relay.languageModels_get
                    match b_model b with Some m => m | None => js "grok-4" end)
          as [mv|];
        [destruct (negb (Relay.model_truthy (Some mv)));
         [|destruct (Relay.authenticate e w req (b_userId b)) as [[r0 w0]|v] eqn:Hauth;
           [|destruct (truthy match b_stream b with JUndefined => JBool true | v => v end)]]
        |]
       |]
      |]]].

(** X7.  Every run of the relay answers with one of the statuses 200, 400,
    401, 405 and 500, calls the completion provider at most once and the
    store at most twice. *)
Theorem relay_statuses_and_calls (e : Relay.env) (w : world) (req : request) :
  let run := Relay.handler e w req in
  (exists s, status_of (fst run) = Some s /\ In s [200; 400; 401; 405; 500])
  /\ provider_calls (snd run) <= S (provider_calls w)
  /\ length (store_trace (snd run)) <= length (store_trace w) + 2.
Proof.
  cbv zeta. relay_cases e w req;
    try (cbn; split; [eexists; split; [reflexivity | cbn; tauto]|]; split; lia).
  - destruct (authenticate_quiet _ _ _ _ Hauth) as [Hs [Hp [Ht _]]].
    cbn [fst snd]. rewrite Hs, Hp, Ht.
    split; [eexists; split; [reflexivity | cbn; tauto]|]. split; lia.
  - destruct (respond_stream_run e w mv msgs v (b_chatId b)) as [[Hs|Hs] [Hp Hl]];
      rewrite Hs, Hp;
      (split; [eexists; split; [reflexivity | cbn; tauto]|]); split; lia.
  - destruct (respond_buffered_run e w mv msgs v (b_chatId b)) as [[Hs|Hs] [Hp Hl]];
      rewrite Hs, Hp;
      (split; [eexists; split; [reflexivity | cbn; tauto]|]); split; lia.
Qed.

(** X8.  A run of the relay that answers 400, 401 or 405 has called neither
    the provider nor the store and has left the tables as they were. *)
Theorem relay_refusals_call_nothing
    (e : Relay.env) (w : world) (req : request) (s : nat) :
  status_of (fst (Relay.handler e w req)) = Some s ->
  In s [400; 401; 405] ->
  no_external_call w (snd (Relay.handler e w req)).
Proof.
  assert (X : forall s', Some s' = Some s -> In s [400; 401; 405] -> s' <> 200 /\ s' <> 500).
  { intros s' E I. inversion E; subst. cbn in I.
    split; intros ->; intuition discriminate. }
  relay_cases e w req; cbn [fst snd]; intros Hs Hin;
    try (repeat split; fail).
  - exact (proj2 (authenticate_quiet _ _ _ _ Hauth)).
  - exfalso.
    destruct (respond_stream_run e w mv msgs v (b_chatId b)) as [[H|H] _];
      rewrite H in Hs; destruct (X _ Hs Hin) as [N1 N2]; [apply N1 | apply N2];
      reflexivity.
  - exfalso.
    destruct (respond_buffered_run e w mv msgs v (b_chatId b)) as [[H|H] _];
      rewrite H in Hs; destruct (X _ Hs Hin) as [N1 N2]; [apply N1 | apply N2];
      reflexivity.
Qed.

Lemma relay_refusals_call_nothing_witness :
  no_external_call Sample.empty_world
    (snd (Relay.handler (Sample.relay_env []) Sample.empty_world
            (Sample.post None
               (Sample.chat_body (Some "grok-9"%string) JUndefined JUndefined JUndefined)))).
Proof.
  apply (@relay_refusals_call_nothing (Sample.relay_env []) Sample.empty_world _ 400).
  - reflexivity.
  - cbn. tauto.
Defined.

(** X9.  A request without a [userId] (absent, [null], empty, [0] or
    [false]) never reaches the store, whatever else it holds and however the
    provider answers. *)
Theorem relay_without_userId_leaves_store (e : Relay.env) (w : world) (req : request) :
  (forall b, body req = Some b -> truthy (b_userId b) = false) ->
  store_untouched w (snd (Relay.handler e w req)).
Proof.
  intros H. relay_cases e w req; cbn [fst snd]; try (repeat split; fail).
  - exact (proj2 (proj2 (authenticate_quiet _ _ _ _ Hauth))).
  - unfold Relay.authenticate in Hauth. rewrite (H b eq_refl) in Hauth.
    inversion Hauth; subst v. unfold Relay.respond_stream. cbn [Relay.verified].
    destruct (Relay.streamText e mv msgs) as [ts|err]; [|repeat split].
    destruct (Relay.read_stream e (Relay.chunks ts) (Relay.failure ts))
      as [fragments [err|]]; repeat split.
  - unfold Relay.authenticate in Hauth. rewrite (H b eq_refl) in Hauth.
    inversion Hauth; subst v. unfold Relay.respond_buffered. cbn [Relay.verified].
    destruct (Relay.generateText e mv msgs); repeat split.
Qed.

Lemma relay_without_userId_leaves_store_witness :
  store_untouched Sample.one_session
    (snd (Relay.handler (Sample.relay_env []) Sample.one_session
            (Sample.post (Some "Bearer token-alice"%string)
               (Sample.chat_body None JUndefined (JStr []) (JStr (js "c1")))))).
Proof.
  apply relay_without_userId_leaves_store.
  intros b H. injection H as <-. reflexivity.
Defined.

Section BrokenStream.

Import Relay.

Variable e : env.

Lemma read_stream_all_decoded (values : list stream_value) (fragments : list jsstring)
    (failure : option js_error) :
  map (TextDecoder_decode e) values = map (@Normal jsstring) fragments ->
  read_stream e values failure = (fragments, failure).
Proof.
  revert fragments; induction values as [|value rest IH]; intros [|f fs] H;
    try discriminate; [reflexivity|].
  cbn [map] in H. injection H as Hv Hr.
  cbn [read_stream]. rewrite Hv, (IH fs Hr). reflexivity.
Qed.

Lemma read_stream_decoding_throws (before after : list stream_value)
    (value : stream_value) (fragments : list jsstring) (error : js_error)
    (failure : option js_error) :
  map (TextDecoder_decode e) before = map (@Normal jsstring) fragments ->
  TextDecoder_decode e value = Throw error ->
  read_stream e (before ++ value :: after) failure = (fragments, Some error).
Proof.
  revert fragments; induction before as [|v rest IH]; intros [|f fs] H T;
    try discriminate.
  - cbn [app read_stream]. rewrite T. reflexivity.
  - cbn [map] in H. injection H as Hv Hr.
    cbn [app read_stream]. rewrite Hv, (IH fs Hr T). reflexivity.
Qed.

Lemma read_stream_breaks (ts : text_stream) (fragments : list jsstring) (error : js_error) :
  stream_breaks e ts fragments error ->
  read_stream e (chunks ts) (failure ts) = (fragments, Some error).
Proof.
  intros [Hd Hf | before after value Hc Hd Ht].
  - rewrite (@read_stream_all_decoded _ _ (failure ts) Hd), Hf. reflexivity.
  - rewrite Hc. exact (@read_stream_decoding_throws _ after _ _ _ (failure ts) Hd Ht).
Qed.

End BrokenStream.

(** X10.  When the stream of a valid request breaks, because a read throws
    or because a value read cannot be decoded, the caller, even an
    authenticated one, gets status 200 and the fragments decoded until
    then, followed by one inline error event and the end of the stream; a
    value whose decoding throws is not forwarded, and nothing is saved. *)
Theorem stream_failure_keeps_fragments_and_saves_nothing
    (e : Relay.env) (w : world) (req : request) (b : request_body) (msgs : list jsval)
    (model uid : jsstring) (ts : Relay.text_stream) (fragments : list jsstring)
    (error : js_error) :
  valid_request e req b msgs model -> authenticated e req b uid ->
  streaming b = true ->
  Relay.streamText e (Relay.ModelId model) msgs = Normal ts ->
  stream_breaks e ts fragments error ->
  exists w',
    Relay.handler e w req
    = (EventStream 200
         (map DeltaEvent fragments
            ++ [ErrorEvent (WithMessage (js "Stream failed: ") error)]) true, w')
    /\ store_untouched w w'.
Proof.
  intros V A Sm Hs Hb.
  destruct (authenticate_accepts w A) as [Auth _].
  rewrite (handler_valid w V), Auth, Sm.
  unfold Relay.respond_stream. rewrite Hs, (@read_stream_breaks e ts fragments error Hb).
  eexists. split; [reflexivity | repeat split].
Qed.

(** X11.  When the provider fails a valid request before producing
    anything, in either mode, the caller gets a JSON 500 that carries the
    provider's message, and nothing is saved, even for an authenticated
    caller. *)
Theorem provider_failure_is_500_and_saves_nothing
    (e : Relay.env) (w : world) (req : request) (b : request_body) (msgs : list jsval)
    (model uid : jsstring) (error : js_error) :
  valid_request e req b msgs model -> authenticated e req b uid ->
  provider_throws e (Relay.ModelId model) msgs (streaming b) error ->
  exists prefix w',
    Relay.handler e w req = (Json 500 (ErrorBody (WithMessage prefix error)), w')
    /\ store_untouched w w'.
Proof.
  intros V A P.
  destruct (authenticate_accepts w A) as [Auth _].
  rewrite (handler_valid w V), Auth.
  unfold provider_throws in P. destruct (streaming b).
  - unfold Relay.respond_stream. rewrite P.
    eexists _, _. split; [reflexivity | repeat split].
  - unfold Relay.respond_buffered. rewrite P.
    eexists _, _. split; [reflexivity | repeat split].
Qed.

(** X12.  Every event stream the relay answers with has status 200, is
    ended, and consists of content fragments followed by exactly one
    terminal event, the sentinel or an inline error. *)
Theorem relay_event_stream_shape
    (e : Relay.env) (w : world) (req : request)
    (s : nat) (events : list sse_event) (ended : bool) :
  fst (Relay.handler e w req) = EventStream s events ended ->
  s = 200 /\ ended = true
  /\ exists fragments final,
       events = map DeltaEvent fragments ++ [final] /\ terminal_event final = true.
Proof.
  relay_cases e w req; cbn [fst snd]; try discriminate.
  - intros H. apply authenticate_refusal_is_json in Hauth.
    destruct Hauth as [message ->]. discriminate.
  - unfold Relay.respond_stream.
    destruct (Relay.streamText e mv msgs) as [ts|err]; [|discriminate].
    destruct (Relay.read_stream e (Relay.chunks ts) (Relay.failure ts))
      as [fragments [err|]]; cbn [fst]; intros H; inversion H;
      (split; [reflexivity|]); (split; [reflexivity|]);
      eexists _, _; split; reflexivity.
  - unfold Relay.respond_buffered.
    destruct (Relay.generateText e mv msgs); [|discriminate].
    destruct (Relay.verified v); [|discriminate].
    destruct (Relay.saveToSupabase _ _ _ _ _ _ _) as [[[i t]|err] w1]; discriminate.
Qed.

Lemma stream_failure_keeps_fragments_and_saves_nothing_witness :
  (exists w',
      Relay.handler Sdk.relay_env Sample.empty_world (Outage.request_of_alice JUndefined)
      = (EventStream 200
           [ErrorEvent (WithMessage (js "Stream failed: ") JsTypeError)] true, w')
      /\ store_untouched Sample.empty_world w')
  /\ (exists w',
        Relay.handler Outage.relay_env Sample.empty_world
          (Outage.request_of_alice JUndefined)
        = (EventStream 200
             [DeltaEvent (js "Hel");
              ErrorEvent (WithMessage (js "Stream failed: ")
                            (JsError (js "socket closed")))] true, w')
        /\ store_untouched Sample.empty_world w').
Proof.
  assert (V : forall e, configured e ->
                valid_request e (Outage.request_of_alice JUndefined)
                  (Sample.chat_body None JUndefined (JStr (js "alice")) JUndefined)
                  Sample.turns (js "grok-4-latest")).
  { intros e C. constructor; try reflexivity; [exact C | discriminate]. }
  assert (A : forall e, Relay.getUser e = Sample.verifier ->
                authenticated e (Outage.request_of_alice JUndefined)
                  (Sample.chat_body None JUndefined (JStr (js "alice")) JUndefined)
                  (js "alice")).
  { intros e G. split; [reflexivity|]. split; [discriminate|].
    exists (js "token-alice"). split; [reflexivity|]. split; [discriminate|].
    rewrite G. reflexivity. }
  split.
  - apply (@stream_failure_keeps_fragments_and_saves_nothing Sdk.relay_env
             Sample.empty_world (Outage.request_of_alice JUndefined)
             (Sample.chat_body None JUndefined (JStr (js "alice")) JUndefined)
             Sample.turns (js "grok-4-latest") (js "alice")
             {| Relay.chunks := [Relay.Text (js "Hel"); Relay.Text (js "lo!")];
                Relay.failure := None |}
             [] JsTypeError).
    + apply V. repeat split.
    + apply A. reflexivity.
    + reflexivity.
    + reflexivity.
    + apply (@decoding_throws _ _ _ _ [] [Relay.Text (js "lo!")] (Relay.Text (js "Hel")));
        reflexivity.
  - apply (@stream_failure_keeps_fragments_and_saves_nothing Outage.relay_env
             Sample.empty_world (Outage.request_of_alice JUndefined)
             (Sample.chat_body None JUndefined (JStr (js "alice")) JUndefined)
             Sample.turns (js "grok-4-latest") (js "alice")
             {| Relay.chunks := [Relay.Bytes (js "Hel")];
                Relay.failure := Some (JsError (js "socket closed")) |}
             [js "Hel"] (JsError (js "socket closed"))).
    + apply V. repeat split.
    + apply A. reflexivity.
    + reflexivity.
    + reflexivity.
    + apply read_throws; reflexivity.
Defined.

Lemma provider_failure_is_500_and_saves_nothing_witness :
  exists prefix w',
    Relay.handler Outage.relay_env Sample.empty_world
      (Outage.request_of_alice (JBool false))
    = (Json 500 (ErrorBody (WithMessage prefix (JsError (js "overloaded")))), w')
    /\ store_untouched Sample.empty_world w'.
Proof.
  apply (@provider_failure_is_500_and_saves_nothing Outage.relay_env
           Sample.empty_world (Outage.request_of_alice (JBool false))
           (Sample.chat_body None (JBool false) (JStr (js "alice")) JUndefined)
           Sample.turns (js "grok-4-latest") (js "alice") (JsError (js "overloaded"))).
  - constructor; try reflexivity; [repeat split | discriminate].
  - split; [reflexivity|]. split; [discriminate|].
    exists (js "token-alice"). split; [reflexivity|]. split; [discriminate | reflexivity].
  - reflexivity.
Defined.

Lemma relay_event_stream_shape_witness :
  exists fragments final,
    [DeltaEvent (js "Hel"); DeltaEvent (js "lo!"); DoneEvent]
    = map DeltaEvent fragments ++ [final] /\ terminal_event final = true.
Proof.
  exact (proj2 (proj2 (@relay_event_stream_shape (Sample.relay_env []) Sample.empty_world
                         (Sample.post None
                            (Sample.chat_body None JUndefined JUndefined JUndefined))
                         200 [DeltaEvent (js "Hel"); DeltaEvent (js "lo!"); DoneEvent]
                         true eq_refl))).
Defined.

(** ** The Groq relay *)

Section GroqFacts.

Import GroqRelay.

Lemma validate_throws_at (pre post : list jsval) (bad : jsval) (i : nat) :
  forallb valid_message pre = true -> object_coercible bad = false ->
  validate i (pre ++ bad :: post) = Throw JsTypeError.
Proof.
  revert i; induction pre as [|m pre IH]; intros i Hv Hb.
  - destruct bad; try discriminate; reflexivity.
  - cbn [forallb] in Hv. apply andb_true_iff in Hv. destruct Hv as [Hm Hv].
    cbn [app validate].
    rewrite (get_field_coercible m "role" (valid_coercible m Hm)), role_check.
    rewrite (get_field_coercible m "content" (valid_coercible m Hm)), content_check.
    unfold valid_message in Hm. apply andb_true_iff in Hm. destruct Hm as [-> ->].
    cbn [negb]. exact (IH (S i) Hv Hb).
Qed.

Lemma validate_first_invalid (msgs : list jsval) (k : nat) (invalid : error_text) :
  validate k msgs = Normal (Some invalid) ->
  exists i m,
    nth_error msgs i = Some m
    /\ forallb valid_message (firstn i msgs) = true
    /\ ((role_in_enumeration (field m "role") = false
         /\ invalid = InvalidRole (k + i) (field m "role"))
        \/ (role_in_enumeration (field m "role") = true
            /\ nonempty_text (field m "content") = false
            /\ invalid = InvalidContent (k + i))).
Proof.
  revert k; induction msgs as [|m ms IH]; intros k; [discriminate|].
  cbn [validate].
  destruct (object_coercible m) eqn:C;
    [|destruct m; discriminate].
  rewrite (get_field_coercible m "role" C), role_check.
  rewrite (get_field_coercible m "content" C), content_check.
  destruct (role_in_enumeration (field m "role")) eqn:R; cbn [negb].
  - destruct (nonempty_text (field m "content")) eqn:T; cbn [negb].
    + intros H. destruct (IH (S k) H) as [i [m' [Hn [Hf Hc]]]].
      exists (S i), m'. split; [exact Hn|]. split.
      * cbn [firstn forallb]. unfold valid_message at 1. rewrite R, T. exact Hf.
      * replace (k + S i) with (S k + i) by lia. exact Hc.
    + intros H. inversion H. exists 0, m. rewrite Nat.add_0_r.
      split; [reflexivity|]. split; [reflexivity|]. right. auto.
  - intros H. inversion H. exists 0, m. rewrite Nat.add_0_r.
    split; [reflexivity|]. split; [reflexivity|]. left. auto.
Qed.

Lemma split_lines_nonnil (s : jsstring) : split_lines s <> [].
Proof.
  induction s as [|c s IH]; simpl; [discriminate|].
  destruct (c =? 10)%N; [discriminate|]. destruct (split_lines s); discriminate.
Qed.

(** Splitting a text read in two parts. *)
Lemma split_lines_app (a b : jsstring) :
  split_lines (a ++ b)
  = removelast (split_lines a) ++ split_lines (last (split_lines a) [] ++ b).
Proof.
  induction a as [|c a IH]; [reflexivity|].
  cbn [app split_lines].
  pose proof (split_lines_nonnil a) as N.
  destruct (c =? 10)%N eqn:E.
  - rewrite IH. destruct (split_lines a) as [|l0 ls0]; [congruence|]. reflexivity.
  - rewrite IH. destruct (split_lines a) as [|l0 ls0]; [congruence|].
    destruct ls0 as [|l1 ls1].
    + cbn [removelast last app split_lines]. rewrite E. reflexivity.
    + reflexivity.
Qed.

Lemma split_one_line (s : jsstring) : one_line s = true -> split_lines s = [s].
Proof.
  induction s as [|c s IH]; [reflexivity|].
  cbn [one_line forallb split_lines]. intros H.
  apply andb_true_iff in H. destruct H as [Hc H].
  apply negb_true_iff in Hc. rewrite Hc, (IH H). reflexivity.
Qed.

Lemma last_line_one_line (s : jsstring) : one_line (last (split_lines s) []) = true.
Proof.
  induction s as [|c s IH]; [reflexivity|].
  cbn [split_lines]. pose proof (split_lines_nonnil s) as N.
  destruct (c =? 10)%N eqn:E.
  - destruct (split_lines s) as [|l ls]; [congruence | exact IH].
  - destruct (split_lines s) as [|l [|l' ls]]; [congruence | | exact IH].
    cbn [last] in *. cbn [one_line forallb]. rewrite E. exact IH.
Qed.

Lemma removelast_app_nonnil (A : Type) (l l' : list A) :
  l' <> [] -> removelast (l ++ l') = l ++ removelast l'.
Proof. intros H. apply removelast_app. exact H. Qed.

Lemma last_app_nonnil (A : Type) (l l' : list A) (d : A) :
  l' <> [] -> last (l ++ l') d = last l' d.
Proof.
  intros H. induction l as [|x l IH]; [reflexivity|].
  cbn [app]. destruct (l ++ l') eqn:E.
  - apply app_eq_nil in E. destruct E as [_ E]. congruence.
  - cbn [last]. exact IH.
Qed.

Variable e : env.

Lemma forward_fragment_twice (buffer f1 f2 : jsstring) (out : list sse_event * world) :
  forward_fragment e (forward_fragment e (buffer, out) f1) f2
  = forward_fragment e (buffer, out) (f1 ++ f2).
Proof.
  unfold forward_fragment.
  rewrite app_assoc, (split_lines_app (buffer ++ f1) f2).
  pose proof (split_lines_nonnil (last (split_lines (buffer ++ f1)) [] ++ f2)) as N.
  rewrite (last_app_nonnil _ _ N), (removelast_app_nonnil _ N), fold_left_app.
  reflexivity.
Qed.

Lemma forward_fragment_buffer (st : jsstring * (list sse_event * world)) (f : jsstring) :
  one_line (fst (forward_fragment e st f)) = true.
Proof. destruct st as [buffer out]. apply last_line_one_line. Qed.

Lemma forward_fragments_concat (frags : list jsstring)
    (st : jsstring * (list sse_event * world)) :
  one_line (fst st) = true ->
  fold_left (forward_fragment e) frags st = forward_fragment e st (concat frags).
Proof.
  revert st; induction frags as [|f fs IH]; intros [buffer out] H.
  - cbn [fold_left concat fst] in *. unfold forward_fragment.
    rewrite app_nil_r, (split_one_line _ H). reflexivity.
  - cbn [fold_left concat]. rewrite (IH _ (forward_fragment_buffer _ _)).
    apply forward_fragment_twice.
Qed.

End GroqFacts.

(** X14.  The validation loop of the Groq relay accepts exactly the lists
    in which every message has a role of the enumeration and a content that
    is a non-empty string. *)
Theorem groq_validate_accepts_valid_lists (msgs : list jsval) (i : nat) :
  GroqRelay.validate i msgs = Normal None <-> forallb valid_message msgs = true.
Proof.
  revert i; induction msgs as [|m ms IH]; intros i; [split; reflexivity|].
  cbn [GroqRelay.validate forallb].
  destruct (object_coercible m) eqn:C.
  - rewrite (get_field_coercible m "role" C), role_check.
    rewrite (get_field_coercible m "content" C), content_check.
    unfold valid_message at 1.
    destruct (role_in_enumeration (field m "role")); cbn [negb andb];
      [|split; discriminate].
    destruct (nonempty_text (field m "content")); cbn [negb];
      [apply IH | split; discriminate].
  - destruct m; try discriminate C; cbn; split; discriminate.
Qed.

(** X15.  The error of the validation loop names the first offending
    message: every message before the reported index is valid, and the
    message at the index has a role outside the enumeration (reported with
    that role) or, its role being fine, a content that is not a non-empty
    string. *)
Theorem groq_validate_reports_first_invalid (msgs : list jsval) (invalid : error_text) :
  GroqRelay.validate 0 msgs = Normal (Some invalid) ->
  exists i m,
    nth_error msgs i = Some m
    /\ forallb valid_message (firstn i msgs) = true
    /\ ((role_in_enumeration (field m "role") = false
         /\ invalid = InvalidRole i (field m "role"))
        \/ (role_in_enumeration (field m "role") = true
            /\ nonempty_text (field m "content") = false
            /\ invalid = InvalidContent i)).
Proof. exact (validate_first_invalid msgs 0 (invalid := invalid)). Qed.

(** X16.  A [null] entry in [messages] that follows valid messages is not
    reported as a validation error: reading its role throws, and the Groq
    relay answers 500 ["Internal server error"] without calling the
    provider. *)
Theorem groq_null_message_is_500
    (e : GroqRelay.env) (w : world) (req : request) (b : request_body)
    (pre post : list jsval) (bad : jsval) :
  method req = js "POST" -> body req = Some b ->
  b_messages b = JArr (pre ++ bad :: post) ->
  forallb valid_message pre = true -> object_coercible bad = false ->
  GroqRelay.handler e w req
  = (Json 500 (ErrorBody (Lit (js "Internal server error"))),
     console_error w "Error in chat API:" (Some JsTypeError)).
Proof.
  intros Hm Hb Hmsgs Hv Hbad.
  unfold GroqRelay.handler. rewrite Hm, jsstring_eqb_refl, Hb, Hmsgs. cbn [negb].
  pose proof (validate_throws_at pre post bad 0 Hv Hbad) as T.
  destruct (pre ++ bad :: post) eqn:E; [destruct pre; discriminate|].
  cbn [nonempty_array]. rewrite T. reflexivity.
Qed.

(** X17.  The user identifier the Groq relay reports holds only ASCII
    letters and digits; for a given [userId] it has at most 8 code units
    (none when the identifier has no letter or digit), and without one it is
    ["anonymous"]. *)
Theorem groq_format_user_shape (userId : jsval) (formatted : jsstring) :
  GroqRelay.format_user userId = Normal formatted ->
  forallb GroqRelay.is_alnum formatted = true
  /\ (if truthy userId then length formatted <= 8 else formatted = js "anonymous").
Proof.
  unfold GroqRelay.format_user. destruct (truthy userId).
  - destruct userId as [| | | |s| |]; try discriminate.
    intros H.
    assert (formatted = firstn 8 (filter GroqRelay.is_alnum s)) as -> by congruence.
    clear H. split.
    + apply forallb_firstn. clear. induction s as [|c s IH]; [reflexivity|].
      cbn [filter]. destruct (GroqRelay.is_alnum c) eqn:E; [|exact IH].
      cbn [forallb]. rewrite E. exact IH.
    + apply firstn_le_length.
  - intros H. injection H as <-. split; reflexivity.
Qed.

(** X18.  What the Groq relay forwards from the provider's stream does not
    depend on how the body is cut into fragments: reading the fragments one
    by one leaves the same events, the same console and the same pending
    line as reading their concatenation at once. *)
Theorem groq_stream_ignores_fragmentation
    (e : GroqRelay.env) (frags : list jsstring) (out : list sse_event * world) :
  fold_left (GroqRelay.forward_fragment e) frags ([], out)
  = GroqRelay.forward_fragment e ([], out) (concat frags).
Proof. apply forward_fragments_concat. reflexivity. Qed.

Lemma groq_validate_accepts_valid_lists_witness :
  GroqRelay.validate 0 Sample.turns = Normal None.
Proof.
  apply (proj2 (groq_validate_accepts_valid_lists Sample.turns 0)). reflexivity.
Defined.

Lemma groq_validate_reports_first_invalid_witness :
  exists i m,
    nth_error (Sample.turns ++ [Sample.message "user" ""]) i = Some m
    /\ forallb valid_message (firstn i (Sample.turns ++ [Sample.message "user" ""])) = true
    /\ ((role_in_enumeration (field m "role") = false
         /\ InvalidContent 2 = InvalidRole i (field m "role"))
        \/ (role_in_enumeration (field m "role") = true
            /\ nonempty_text (field m "content") = false
            /\ InvalidContent 2 = InvalidContent i)).
Proof.
  apply (@groq_validate_reports_first_invalid
           (Sample.turns ++ [Sample.message "user" ""]) (InvalidContent 2)).
  reflexivity.
Defined.

Lemma groq_null_message_is_500_witness :
  status_of (fst (GroqRelay.handler Sample.groq_env Sample.empty_world
                    (Sample.post None
                       {| b_messages := JArr (Sample.turns ++ [JNull]); b_model := None;
                          b_stream := JUndefined; b_userId := JUndefined;
                          b_chatId := JUndefined |})))
  = Some 500.
Proof.
  rewrite (@groq_null_message_is_500 Sample.groq_env Sample.empty_world _
             {| b_messages := JArr (Sample.turns ++ [JNull]); b_model := None;
                b_stream := JUndefined; b_userId := JUndefined;
                b_chatId := JUndefined |}
             Sample.turns [] JNull); reflexivity.
Defined.

Lemma groq_format_user_shape_witness :
  forallb GroqRelay.is_alnum (js "useralic") = true
  /\ length (js "useralic") <= 8.
Proof.
  exact (@groq_format_user_shape (JStr (js "user-alice@example.org")) (js "useralic")
           eq_refl).
Defined.

(** ** Deletion of sessions: what is removed and what is kept *)

Section DeletionScope.

Lemma NoDup_map_eq (A B : Type) (f : A -> B) (l : list A) (x y : A) :
  NoDup (map f l) -> In x l -> In y l -> f x = f y -> x = y.
Proof.
  induction l as [|a l IH]; [contradiction|].
  cbn [map]. intros N. inversion N as [|? ? Na Nl]; subst.
  intros [->|Ix] [->|Iy] E; try reflexivity.
  - exfalso. apply Na. rewrite E. apply in_map. exact Iy.
  - exfalso. apply Na. rewrite <- E. apply in_map. exact Ix.
  - exact (IH Nl Ix Iy E).
Qed.

Lemma reject_none (A : Type) (p : A -> bool) (l : list A) :
  filter p l = [] -> reject p l = l.
Proof.
  unfold reject. induction l as [|x l IH]; [reflexivity|].
  cbn [filter]. destruct (p x); [discriminate|].
  intros H. cbn [negb]. rewrite (IH H). reflexivity.
Qed.

Lemma reject_no_chats (ms : list message_row) : reject (message_of_chats []) ms = ms.
Proof.
  apply reject_none. induction ms as [|m ms IH]; [reflexivity | exact IH].
Qed.

Variable cs : list chat_row.
Hypothesis unique : NoDup (map c_id cs).
Variable uid : jsstring.
Variable c : chat_row.
Hypothesis listed : In c cs.
Hypothesis other : chat_of_user uid c = false.

Lemma other_owner_not_selected (sid : jsstring) (row : chat_row) :
  match filter (fun x => chat_has_id sid x && chat_of_user uid x) cs with
  | [x] => Some x
  | _ => None
  end = Some row ->
  chat_has_id sid c = false.
Proof.
  intros H.
  destruct (filter (fun x => chat_has_id sid x && chat_of_user uid x) cs)
    as [|x [|y l]] eqn:F; try discriminate.
  assert (I : In x (filter (fun x => chat_has_id sid x && chat_of_user uid x) cs))
    by (rewrite F; left; reflexivity).
  apply filter_In in I. destruct I as [Ix Px].
  apply andb_true_iff in Px. destruct Px as [Hid Hu].
  destruct (chat_has_id sid c) eqn:E; [|reflexivity].
  exfalso. unfold chat_has_id in *.
  apply jsval_eqb_eq in Hid. apply jsval_eqb_eq in E.
  assert (c = x) by (apply (NoDup_map_eq c_id cs); congruence).
  subst x. congruence.
Qed.

Lemma other_owner_messages_kept (m : message_row) :
  m_chat_id m = c_id c ->
  message_of_chats (map c_id (filter (chat_of_user uid) cs)) m = false.
Proof.
  intros E. unfold message_of_chats.
  destruct (existsb _ _) eqn:X; [|reflexivity].
  exfalso. apply existsb_exists in X. destruct X as [i [Ii Hi]].
  apply in_map_iff in Ii. destruct Ii as [x [<- Ix]].
  apply filter_In in Ix. destruct Ix as [Ix Hu].
  apply jsval_eqb_eq in Hi.
  assert (c = x) by (apply (NoDup_map_eq c_id cs); congruence).
  subst x. congruence.
Qed.

End DeletionScope.

Ltac delete_cases :=
  unfold History.handleDelete, History.failed, select_chat, select_chat_ids,
    delete_messages_of_chat, delete_messages_of_chats, delete_chat,
    delete_chats_of_user, store_call, console_error;
  repeat match goal with
         | |- context [if ?c then _ else _] => destruct c eqn:?
         | |- context [match ?c with _ => _ end] => destruct c eqn:?
         end;
  cbn [snd fst negb chats messages store_trace status_of] in *;
  try discriminate.

(** X19.  [handleDelete] never removes what belongs to another owner: when
    the identifiers of the sessions are unique, a session that the verified
    caller does not own is still there after the run, with all its
    messages, whatever the request asks for and whatever the store
    answers. *)
Theorem handleDelete_spares_other_owners
    (e : History.env) (w : world) (req : request) (uid : jsstring) (c : chat_row) :
  NoDup (map c_id (chats w)) ->
  (forall token, bearer_token req = Some token ->
                 History.verifyIdToken e token = Normal uid) ->
  In c (chats w) -> chat_of_user uid c = false ->
  let w' := snd (History.handleDelete e w req) in
  In c (chats w')
  /\ forall m, In m (messages w) -> m_chat_id m = c_id c -> In m (messages w').
Proof.
  intros unique Hver listed other. cbv zeta.
  destruct (bearer_token req) as [token|] eqn:Ht.
  - pose proof (Hver token eq_refl) as V. clear Hver.
    assert (Keep : forall sid m, m_chat_id m = c_id c -> chat_has_id sid c = false ->
                                 message_of_chat sid m = false).
    { intros sid m E H. unfold message_of_chat. rewrite E. exact H. }
    unfold History.handleDelete. rewrite Ht, V.
    delete_cases;
      (split;
       [ first [ assumption
               | apply reject_In; split; [assumption|];
                 first [ assumption
                       | eapply other_owner_not_selected; eassumption ] ]
       | intros m Im Em;
         first [ assumption
               | apply reject_In; split; [assumption|];
                 first [ apply Keep; [assumption|];
                         eapply other_owner_not_selected; eassumption
                       | match goal with
                         | H : map c_id _ = _ |- _ =>
                             rewrite <- H;
                             eapply other_owner_messages_kept; eassumption
                         end ] ] ]).
  - unfold History.handleDelete. rewrite Ht. cbn [present negb].
    destruct (negb (present (History.SUPABASE_URL e))
              || negb (present (History.SUPABASE_SERVICE_ROLE_KEY e)));
      (split; [assumption | intros; assumption]).
Qed.

(** X20.  When [handleDelete] answers 200, the tables are exactly the old
    ones without what was asked for: for a session identifier, without the
    sessions of that identifier and the messages filed under it; without
    one (absent or empty), without the sessions of the caller and the
    messages filed under them. *)
Theorem handleDelete_success_removes_exactly
    (e : History.env) (w : world) (req : request) (uid : jsstring) :
  (forall token, bearer_token req = Some token ->
                 History.verifyIdToken e token = Normal uid) ->
  fst (History.handleDelete e w req) = Json 200 SuccessBody ->
  let w' := snd (History.handleDelete e w req) in
  let sid := match query_sessionId req with Some s => s | None => [] end in
  if present (query_sessionId req) then
    chats w' = reject (chat_has_id sid) (chats w)
    /\ messages w' = reject (message_of_chat sid) (messages w)
  else
    chats w' = reject (chat_of_user uid) (chats w)
    /\ messages w'
       = reject (message_of_chats (map c_id (filter (chat_of_user uid) (chats w))))
           (messages w).
Proof.
  intros Hver. cbv zeta.
  destruct (bearer_token req) as [token|] eqn:Ht.
  - pose proof (Hver token eq_refl) as V. clear Hver.
    unfold History.handleDelete. rewrite Ht, V.
    delete_cases; intros _;
      first [ split; reflexivity
            | match goal with
              | H : map c_id _ = [] |- _ =>
                  rewrite ?H, reject_no_chats; apply map_eq_nil in H;
                  rewrite (reject_none _ _ H); split; reflexivity
              | H : map c_id _ = _ :: _ |- _ => rewrite ?H; split; reflexivity
              end ].
  - unfold History.handleDelete. rewrite Ht. cbn [present negb].
    destruct (negb (present (History.SUPABASE_URL e))
              || negb (present (History.SUPABASE_SERVICE_ROLE_KEY e))); discriminate.
Qed.

(** X21.  A run of [handleDelete] that does not answer 200 has removed no
    session, and unless it answers 500 it has removed no message either. *)
Theorem handleDelete_failure_keeps_sessions
    (e : History.env) (w : world) (req : request) (s : nat) :
  status_of (fst (History.handleDelete e w req)) = Some s -> s <> 200 ->
  let w' := snd (History.handleDelete e w req) in
  chats w' = chats w /\ (s <> 500 -> messages w' = messages w).
Proof.
  cbv zeta. delete_cases; intros Hs Hn;
    (split; [first [reflexivity | exfalso; inversion Hs; congruence]|]);
    intros N; first [reflexivity | exfalso; inversion Hs; congruence].
Qed.

(** X22.  The handler of [src/api/chat-history.js] never changes the
    messages table, and a session that is gone after a run was owned by the
    caller the identity verifier recognised, in a [DELETE] request. *)
Theorem legacy_history_scope (e : LegacyHistory.env) (w : world) (req : request) :
  let w' := snd (LegacyHistory.handler e w req) in
  messages w' = messages w
  /\ forall c, In c (chats w) ->
       In c (chats w')
       \/ exists token uid,
            bearer_token req = Some token
            /\ LegacyHistory.getUser e token = AuthReply (Some uid) false
            /\ chat_of_user uid c = true
            /\ method req = js "DELETE".
Proof.
  cbv zeta. unfold LegacyHistory.handler, LegacyHistory.internal.
  destruct (negb (present (LegacyHistory.SUPABASE_URL e))
            || negb (present (LegacyHistory.SUPABASE_SERVICE_ROLE_KEY e)));
    [cbn; auto|].
  destruct (bearer_token req) as [token|] eqn:Ht; [|cbn; auto].
  destruct (negb (present (Some token))); [cbn; auto|].
  destruct (LegacyHistory.getUser e token) as [[uid|] [|]|err] eqn:G;
    try (cbn; auto; fail).
  destruct (jsstring_eqb (method req) (js "GET")).
  { unfold select_sessions, store_call.
    destruct (store_fails _ _); cbn; auto. }
  destruct (jsstring_eqb (method req) (js "DELETE")) eqn:M; [|cbn; auto].
  apply jsstring_eqb_eq in M.
  assert (R : forall p c,
             (forall x, p x = true -> chat_of_user uid x = true) ->
             In c (chats w) ->
             In c (reject p (chats w))
             \/ exists tk u,
                  Some token = Some tk
                  /\ LegacyHistory.getUser e tk = AuthReply (Some u) false
                  /\ chat_of_user u c = true /\ method req = js "DELETE").
  { intros p c Hp I. destruct (p c) eqn:P.
    - right. exists token, uid. repeat split; auto.
    - left. apply reject_In. split; assumption. }
  unfold delete_owned_chat, delete_chats_of_user, store_call, console_error.
  destruct (present (query_sessionId req));
    destruct (store_fails _ _); cbn [negb fst snd chats messages];
    (split; [reflexivity|]); intros c I; auto;
    apply R; auto.
  intros x H. apply andb_true_iff in H. tauto.
Qed.

(** X23.  What a [GET] of [src/api/chat-history.js] lists: every session of
    the answer is a session of the recognised caller, every session of the
    caller is in the answer, each with exactly the messages filed under its
    identifier; the tables are left as they were. *)
Theorem legacy_history_lists_own_sessions
    (e : LegacyHistory.env) (w : world) (req : request)
    (data : list (chat_row * list message_row)) :
  fst (LegacyHistory.handler e w req) = Json 200 (SessionsBody data) ->
  exists token uid,
    bearer_token req = Some token
    /\ LegacyHistory.getUser e token = AuthReply (Some uid) false
    /\ (forall c, In c (map fst data) <-> In c (chats w) /\ chat_of_user uid c = true)
    /\ Forall (fun session =>
                 forall m, In m (snd session)
                           <-> In m (messages w) /\ m_chat_id m = c_id (fst session)) data
    /\ chats (snd (LegacyHistory.handler e w req)) = chats w
    /\ messages (snd (LegacyHistory.handler e w req)) = messages w.
Proof.
  unfold LegacyHistory.handler, LegacyHistory.internal.
  destruct (negb (present (LegacyHistory.SUPABASE_URL e))
            || negb (present (LegacyHistory.SUPABASE_SERVICE_ROLE_KEY e)));
    [discriminate|].
  destruct (bearer_token req) as [token|] eqn:Ht; [|discriminate].
  destruct (negb (present (Some token))); [discriminate|].
  destruct (LegacyHistory.getUser e token) as [[uid|] [|]|err] eqn:G;
    try discriminate.
  destruct (jsstring_eqb (method req) (js "GET")).
  - unfold select_sessions, store_call.
    destruct (store_fails _ _); cbn [negb fst snd chats messages]; [discriminate|].
    intros H. inversion H. subst data. clear H.
    exists token, uid. split; [reflexivity|]. split; [exact G|].
    split; [|split; [|split; reflexivity]].
    + intros c. rewrite map_map. cbn [fst]. rewrite map_id, <- in_rev, filter_In.
      reflexivity.
    + apply Forall_forall. intros [c ms] I. apply in_map_iff in I.
      destruct I as [c' [E _]]. inversion E; subst. cbn [fst snd].
      intros m. rewrite filter_In. split.
      * intros [Im Hm]. split; [exact Im|]. symmetry.
        apply jsval_eqb_eq in Hm. congruence.
      * intros [Im Hm]. split; [exact Im|]. rewrite Hm. apply jsval_eqb_refl.
  - destruct (jsstring_eqb (method req) (js "DELETE")); [|discriminate].
    unfold delete_owned_chat, delete_chats_of_user, store_call, console_error.
    destruct (present (query_sessionId req));
      destruct (store_fails _ _); discriminate.
Qed.

Lemma handleDelete_spares_other_owners_witness :
  In Shared.chat_of_bob
    (chats (snd (History.handleDelete Sample.history_env Shared.two_owners
                   (Sample.delete (Some "Bearer token-alice"%string) None)))).
Proof.
  apply (@handleDelete_spares_other_owners Sample.history_env Shared.two_owners
           (Sample.delete (Some "Bearer token-alice"%string) None) (js "alice")
           Shared.chat_of_bob).
  - repeat constructor; cbn; intuition discriminate.
  - intros token H. injection H as <-. reflexivity.
  - right. left. reflexivity.
  - reflexivity.
Defined.

Lemma handleDelete_success_removes_exactly_witness :
  chats (snd (History.handleDelete Sample.history_env Shared.two_owners
                (Sample.delete (Some "Bearer token-alice"%string) (Some "c1"%string))))
  = [Shared.chat_of_bob].
Proof.
  assert (V : forall token,
             bearer_token (Sample.delete (Some "Bearer token-alice"%string)
                             (Some "c1"%string)) = Some token ->
             History.verifyIdToken Sample.history_env token = Normal (js "alice")).
  { intros token H. injection H as <-. reflexivity. }
  exact (proj1 (@handleDelete_success_removes_exactly Sample.history_env Shared.two_owners
                  _ (js "alice") V eq_refl)).
Defined.

Lemma handleDelete_failure_keeps_sessions_witness :
  chats (snd (History.handleDelete Sample.history_env Shared.two_owners
                (Sample.delete (Some "Bearer token-alice"%string) (Some "c2"%string))))
  = chats Shared.two_owners.
Proof.
  apply (@handleDelete_failure_keeps_sessions Sample.history_env Shared.two_owners
           (Sample.delete (Some "Bearer token-alice"%string) (Some "c2"%string)) 404).
  - reflexivity.
  - discriminate.
Defined.

Lemma legacy_history_lists_own_sessions_witness :
  exists token uid,
    bearer_token (Shared.get (Some "Bearer token-alice"%string)) = Some token
    /\ LegacyHistory.getUser Sample.legacy_env token = AuthReply (Some uid) false
    /\ (forall c, In c (map fst [(hd Shared.chat_of_bob (chats Sample.one_session),
                                  messages Sample.one_session)])
                  <-> In c (chats Shared.two_owners) /\ chat_of_user uid c = true).
Proof.
  destruct (@legacy_history_lists_own_sessions Sample.legacy_env Shared.two_owners
              (Shared.get (Some "Bearer token-alice"%string))
              [(hd Shared.chat_of_bob (chats Sample.one_session),
                messages Sample.one_session)] eq_refl)
    as [token [uid [Ht [Hg [Hc _]]]]].
  exists token, uid. split; [exact Ht|]. split; [exact Hg | exact Hc].
Defined.

(** X24.  Deleting a session is not atomic either: when the session is
    found, its messages are deleted and the delete of the session row then
    fails, [handleDelete] answers 500 and the session stays in the store
    without its messages. *)
Theorem handleDelete_can_leave_empty_session
    (e : History.env) (w : world) (req : request) (token uid sid : jsstring)
    (row : chat_row) :
  present (History.SUPABASE_URL e) = true ->
  present (History.SUPABASE_SERVICE_ROLE_KEY e) = true ->
  bearer_token req = Some token -> token <> [] ->
  History.verifyIdToken e token = Normal uid ->
  query_sessionId req = Some sid -> sid <> [] ->
  filter (fun c => chat_has_id sid c && chat_of_user uid c) (chats w) = [row] ->
  store_fails (History.store e) (length (store_trace w)) = false ->
  store_fails (History.store e) (S (length (store_trace w))) = false ->
  store_fails (History.store e) (S (S (length (store_trace w)))) = true ->
  let run := History.handleDelete e w req in
  fst run = Json 500 (ErrorBody (Lit (js "Failed to delete chat")))
  /\ chats (snd run) = chats w /\ In row (chats (snd run))
  /\ messages (snd run) = reject (message_of_chat sid) (messages w).
Proof.
  intros Hu Hk Ht Hne V Hq Hs F S0 S1 S2. cbv zeta.
  assert (I : In row (chats w)).
  { assert (X : In row (filter (fun c => chat_has_id sid c && chat_of_user uid c)
                          (chats w))) by (rewrite F; left; reflexivity).
    apply filter_In in X. tauto. }
  unfold History.handleDelete. rewrite Hu, Hk, Ht, Hq, V.
  destruct token as [|t token]; [congruence|].
  destruct sid as [|s sid]; [congruence|].
  cbn [present nonempty negb orb].
  unfold select_chat, store_call. rewrite S0, F. cbn [negb].
  unfold delete_messages_of_chat, store_call. cbn [store_trace].
  rewrite length_app. cbn [length]. rewrite Nat.add_1_r, S1. cbn [negb].
  unfold delete_chat, store_call. cbn [store_trace].
  rewrite !length_app. cbn [length]. rewrite !Nat.add_1_r, S2. cbn [negb].
  cbn. repeat split. exact I.
Qed.

Lemma handleDelete_can_leave_empty_session_witness :
  let run := History.handleDelete
               {| History.SUPABASE_URL := Some (js "https://db.example");
                  History.SUPABASE_SERVICE_ROLE_KEY := Some (js "service-key");
                  History.verifyIdToken := History.verifyIdToken Sample.history_env;
                  History.store := Sample.store_with_faults [2] |}
               Sample.one_session
               (Sample.delete (Some "Bearer token-alice"%string) (Some "c1"%string)) in
  fst run = Json 500 (ErrorBody (Lit (js "Failed to delete chat")))
  /\ chats (snd run) = chats Sample.one_session /\ messages (snd run) = [].
Proof.
  destruct (@handleDelete_can_leave_empty_session
              {| History.SUPABASE_URL := Some (js "https://db.example");
                 History.SUPABASE_SERVICE_ROLE_KEY := Some (js "service-key");
                 History.verifyIdToken := History.verifyIdToken Sample.history_env;
                 History.store := Sample.store_with_faults [2] |}
              Sample.one_session
              (Sample.delete (Some "Bearer token-alice"%string) (Some "c1"%string))
              (js "token-alice") (js "alice") (js "c1")
              (hd Shared.chat_of_bob (chats Sample.one_session)))
    as [H [Hc [_ Hm]]]; try reflexivity; try discriminate.
  cbv zeta. split; [exact H|]. split; [exact Hc | exact Hm].
Defined.

(** ** The title heuristic applied to a title *)

Section TitleFixpoint.

Let unit_ok (c : N) : bool := negb (is_markup c) && negb (is_js_space c).

Lemma title_word_nonnil (w : jsstring) : title_word w = true -> w <> [].
Proof. intros H ->. discriminate H. Qed.

Lemma title_word_units (w : jsstring) :
  title_word w = true -> forallb unit_ok w = true.
Proof. unfold title_word. intros H. apply andb_true_iff in H. tauto. Qed.

Lemma ws_words_one_word (w : jsstring) :
  w <> [] -> forallb unit_ok w = true -> ws_words w = [w].
Proof.
  induction w as [|c w IH]; [congruence|]. intros _ H.
  cbn [forallb] in H. apply andb_true_iff in H. destruct H as [Hc H].
  unfold unit_ok in Hc. apply andb_true_iff in Hc. destruct Hc as [_ Hc].
  apply negb_true_iff in Hc.
  destruct w as [|d w].
  - cbn. rewrite Hc. reflexivity.
  - rewrite ws_words_step, Hc.
    assert (Hd : is_js_space d = false).
    { cbn [forallb] in H. apply andb_true_iff in H. destruct H as [Hd _].
      unfold unit_ok in Hd. apply andb_true_iff in Hd. destruct Hd as [_ Hd].
      apply negb_true_iff in Hd. exact Hd. }
    rewrite Hd, (IH ltac:(discriminate) H). reflexivity.
Qed.

Lemma ws_words_word_then_space (w r : jsstring) :
  w <> [] -> forallb unit_ok w = true ->
  ws_words (w ++ 32%N :: r) = w :: ws_words r.
Proof.
  induction w as [|c w IH]; [congruence|]. intros _ H.
  cbn [forallb] in H. apply andb_true_iff in H. destruct H as [Hc H].
  unfold unit_ok in Hc. apply andb_true_iff in Hc. destruct Hc as [_ Hc].
  apply negb_true_iff in Hc.
  destruct w as [|d w].
  - cbn [app]. rewrite ws_words_step, Hc. reflexivity.
  - cbn [app]. rewrite ws_words_step, Hc.
    assert (Hd : is_js_space d = false).
    { cbn [forallb] in H. apply andb_true_iff in H. destruct H as [Hd _].
      unfold unit_ok in Hd. apply andb_true_iff in Hd. destruct Hd as [_ Hd].
      apply negb_true_iff in Hd. exact Hd. }
    rewrite Hd. change (d :: w ++ 32%N :: r) with ((d :: w) ++ 32%N :: r).
    rewrite (IH ltac:(discriminate) H). reflexivity.
Qed.

Lemma ws_words_join_space (ws : list jsstring) :
  forallb title_word ws = true -> ws_words (join_space ws) = ws.
Proof.
  induction ws as [|w ws IH]; [reflexivity|].
  cbn [forallb]. intros H. apply andb_true_iff in H. destruct H as [Hw H].
  destruct ws as [|w' ws'].
  - apply ws_words_one_word; [exact (@title_word_nonnil _ Hw) | exact (@title_word_units _ Hw)].
  - change (join_space (w :: w' :: ws')) with (w ++ 32%N :: join_space (w' :: ws')).
    rewrite ws_words_word_then_space, (IH H);
      [reflexivity | exact (@title_word_nonnil _ Hw) | exact (@title_word_units _ Hw)].
Qed.

Lemma strip_markup_clean (s : jsstring) :
  forallb (fun c => negb (is_markup c)) s = true -> strip_markup s = s.
Proof.
  unfold strip_markup. induction s as [|c s IH]; [reflexivity|].
  cbn [forallb filter]. intros H. apply andb_true_iff in H. destruct H as [-> H].
  rewrite (IH H). reflexivity.
Qed.

Lemma join_space_no_markup (ws : list jsstring) :
  forallb title_word ws = true ->
  forallb (fun c => negb (is_markup c)) (join_space ws) = true.
Proof.
  intros H. apply forallb_join_space; [reflexivity|].
  induction ws as [|w ws IH]; [reflexivity|].
  cbn [forallb] in *. apply andb_true_iff in H. destruct H as [Hw H].
  rewrite (IH H), andb_true_r.
  pose proof (@title_word_units _ Hw) as U. clear -U.
  induction w as [|c w IHw]; [reflexivity|].
  cbn [forallb] in *. apply andb_true_iff in U. destruct U as [Hc U].
  unfold unit_ok in Hc. apply andb_true_iff in Hc. destruct Hc as [-> _].
  exact (IHw U).
Qed.

Lemma filter_title_words (ws : list jsstring) :
  forallb title_word ws = true ->
  filter (fun w => negb (length w <=? 2)) ws = ws.
Proof.
  induction ws as [|w ws IH]; [reflexivity|].
  cbn [forallb filter]. intros H. apply andb_true_iff in H. destruct H as [Hw H].
  unfold title_word in Hw. apply andb_true_iff in Hw. destruct Hw as [Hl _].
  rewrite Nat.leb_antisym, negb_involutive, Hl, (IH H). reflexivity.
Qed.

(** A text made of at most three title words joined by single spaces, of at
    most 20 code units, is its own title. *)
Lemma title_of_joined_words (ws : list jsstring) :
  ws <> [] -> length ws <= 3 -> forallb title_word ws = true ->
  length (join_space ws) <= 20 ->
  generateChatTitle (join_space ws) = join_space ws.
Proof.
  intros Hn Hl Hw Hj. rewrite generateChatTitle_title_spec.
  unfold title_spec, surviving_words. rewrite <- strip_markup_spec.
  rewrite (@strip_markup_clean _ (@join_space_no_markup _ Hw)).
  rewrite (@ws_words_join_space _ Hw), (@filter_title_words _ Hw).
  destruct ws as [|w ws']; [congruence|].
  rewrite (firstn_all2 (n := 3) (w :: ws')) by exact Hl.
  apply Nat.ltb_ge in Hj. rewrite Hj. reflexivity.
Qed.

Lemma surviving_words_are_title_words (content : jsstring) :
  forallb title_word (surviving_words content) = true.
Proof.
  unfold surviving_words.
  pose proof (ws_words_units _ _ (strip_markup_units content)) as H.
  rewrite strip_markup_spec in H.
  induction (ws_words (without_markup content)) as [|w ws IH]; [reflexivity|].
  cbn [forallb] in H. apply andb_true_iff in H. destruct H as [Hw H].
  cbn [filter]. destruct (negb (length w <=? 2)) eqn:L; [|exact (IH H)].
  cbn [forallb]. rewrite (IH H), andb_true_r.
  unfold title_word. rewrite Nat.leb_antisym, negb_involutive in L.
  rewrite L. exact Hw.
Qed.

(** Cutting a joined text and appending a word gives a joined text again. *)
Lemma truncated_join (dots : jsstring) (ws : list jsstring) (n : nat) :
  title_word dots = true -> ws <> [] -> forallb title_word ws = true ->
  exists ws', ws' <> [] /\ length ws' <= length ws
              /\ forallb title_word ws' = true
              /\ firstn n (join_space ws) ++ dots = join_space ws'.
Proof.
  intros Hd. revert n; induction ws as [|w ws IH]; intros n Hn Hw; [congruence|].
  cbn [forallb] in Hw. apply andb_true_iff in Hw. destruct Hw as [Hw Hws].
  assert (Cut : forall k, title_word (firstn k w ++ dots) = true).
  { intros k. unfold title_word in *.
    apply andb_true_iff in Hd. destruct Hd as [Ld Ud].
    apply andb_true_iff in Hw. destruct Hw as [_ Uw].
    apply andb_true_iff. split.
    - apply Nat.ltb_lt. apply Nat.ltb_lt in Ld. rewrite length_app. lia.
    - rewrite forallb_app, (forallb_firstn _ k _ Uw). exact Ud. }
  destruct ws as [|w' ws'].
  - exists [firstn n w ++ dots]. split; [discriminate|]. split; [cbn; lia|].
    split; [cbn [forallb]; rewrite Cut; reflexivity | reflexivity].
  - change (join_space (w :: w' :: ws')) with (w ++ 32%N :: join_space (w' :: ws')).
    rewrite firstn_app.
    destruct (n - length w) as [|m] eqn:E.
    + cbn [firstn]. rewrite app_nil_r.
      exists [firstn n w ++ dots]. split; [discriminate|]. split; [cbn; lia|].
      split; [cbn [forallb]; rewrite Cut; reflexivity | reflexivity].
    + rewrite (firstn_all2 (n := n) w) by lia. cbn [firstn].
      destruct (IH m ltac:(discriminate) Hws) as [ws2 [N2 [L2 [W2 J2]]]].
      exists (w :: ws2). split; [discriminate|]. split; [cbn [length] in *; lia|].
      split; [cbn [forallb]; rewrite Hw; exact W2|].
      rewrite <- app_assoc. cbn [app]. rewrite J2.
      destruct ws2 as [|x l]; [congruence | reflexivity].
Qed.

End TitleFixpoint.

(** X25.  A title is its own title: the heuristic applied to a title it
    produced gives that title back, so a title can be previewed, stored and
    derived again without drifting. *)
Theorem generateChatTitle_idempotent (content : jsstring) :
  generateChatTitle (generateChatTitle content) = generateChatTitle content.
Proof.
  rewrite (generateChatTitle_title_spec content). unfold title_spec.
  pose proof (surviving_words_are_title_words content) as W.
  destruct (surviving_words content) as [|w ws] eqn:S; [reflexivity|].
  assert (W3 : forallb title_word (firstn 3 (w :: ws)) = true)
    by (apply forallb_firstn; exact W).
  assert (L3 : length (firstn 3 (w :: ws)) <= 3) by apply firstn_le_length.
  assert (N3 : firstn 3 (w :: ws) <> []) by discriminate.
  destruct (20 <? length (join_space (firstn 3 (w :: ws)))) eqn:E.
  - apply Nat.ltb_lt in E.
    destruct (@truncated_join (js "...") (firstn 3 (w :: ws)) 17 eq_refl N3 W3)
      as [ws' [N' [L' [W' J']]]].
    assert (Len : length (firstn 17 (join_space (firstn 3 (w :: ws))) ++ js "...") = 20).
    { rewrite length_app, firstn_length_le by lia. reflexivity. }
    rewrite J' in *. apply title_of_joined_words; try assumption; lia.
  - apply Nat.ltb_ge in E. apply title_of_joined_words; assumption.
Qed.

(** ** Two more facts about the relay *)

(** X26.  A model name that is neither a key of [languageModels] nor the
    name of a property that the table inherits is refused: the relay answers
    400 ["Invalid model: <name>"] to a [POST] request with a non-empty
    messages array, and calls neither the provider nor the store. *)
Theorem relay_rejects_unknown_model
    (e : Relay.env) (w : world) (req : request) (b : request_body) :
  method req = js "POST" -> configured e -> body req = Some b ->
  nonempty_array (b_messages b) <> None ->
  Relay.is_own_key (requested_model b) = false ->
  Relay.is_inherited (requested_model b) = false ->
  fst (Relay.handler e w req)
  = Json 400 (ErrorBody (Lit (js "Invalid model: " ++ requested_model b)))
  /\ no_external_call w (snd (Relay.handler e w req)).
Proof.
  intros Hm Hc Hb Hmsgs Hown Hin.
  rewrite (@unknown_model_rejected e w req b Hm Hc Hb Hmsgs Hown Hin).
  split; [reflexivity | repeat split].
Qed.

Lemma relay_rejects_unknown_model_witness :
  fst (Relay.handler (Sample.relay_env []) Sample.empty_world
         (Sample.post None
            (Sample.chat_body (Some "grok-9"%string) JUndefined JUndefined JUndefined)))
  = Json 400 (ErrorBody (Lit (js "Invalid model: grok-9"))).
Proof.
  apply (@relay_rejects_unknown_model (Sample.relay_env []) Sample.empty_world
           (Sample.post None
              (Sample.chat_body (Some "grok-9"%string) JUndefined JUndefined JUndefined))
           (Sample.chat_body (Some "grok-9"%string) JUndefined JUndefined JUndefined));
    try reflexivity; [repeat split | discriminate].
Defined.

(** X27.  In incremental mode what the caller receives does not depend on
    the store: behind the same deployment, two stores that answer
    differently give the same response to the same request, and the
    provider is called as often. *)
Theorem relay_stream_outcome_ignores_store
    (e : Relay.env) (o1 o2 : store_oracle) (w : world) (req : request) (b : request_body) :
  body req = Some b -> streaming b = true ->
  fst (Relay.handler (with_store e o1) w req) = fst (Relay.handler (with_store e o2) w req)
  /\ provider_calls (snd (Relay.handler (with_store e o1) w req))
     = provider_calls (snd (Relay.handler (with_store e o2) w req)).
Proof.
  intros Hb Hs. split; [exact (@stream_response_independent_of_store e o1 o2 w req b Hb Hs)|].
  assert (R : forall o mv msgs v c,
             provider_calls (snd (Relay.respond_stream (with_store e o) w mv msgs v c))
             = S (provider_calls w)).
  { intros o mv msgs v c.
    exact (proj1 (proj2 (respond_stream_run (with_store e o) w mv msgs v c))). }
  unfold Relay.handler. cbn [with_store Relay.SUPABASE_URL Relay.SUPABASE_SERVICE_ROLE_KEY
                               Relay.XAI_API_KEY].
  destruct (negb (jsstring_eqb (method req) (js "POST"))); [reflexivity|].
  destruct (negb (present (Relay.SUPABASE_URL e))
            || negb (present (Relay.SUPABASE_SERVICE_ROLE_KEY e))
            || negb (present (Relay.XAI_API_KEY e))); [reflexivity|].
  rewrite Hb. destruct (nonempty_array (b_messages b)) as [msgs|]; [|reflexivity].
  destruct (Relay.languageModels_get _) as [mv|]; [|reflexivity].
  destruct (negb (Relay.model_truthy (Some mv))); [reflexivity|].
  unfold Relay.authenticate. cbn [with_store Relay.getUser].
  fold (streaming b). rewrite Hs.
  destruct (truthy (b_userId b)); [|rewrite !R; reflexivity].
  destruct (bearer_token req) as [token|]; [|reflexivity].
  destruct (negb (nonempty token)); [reflexivity|].
  destruct (Relay.getUser e token) as [[id|] err|err]; try reflexivity.
  destruct (err || negb (is_string id (b_userId b))); [reflexivity|].
  rewrite !R. reflexivity.
Qed.

Lemma relay_stream_outcome_ignores_store_witness :
  fst (Relay.handler (with_store (Sample.relay_env []) (Sample.store_with_faults [0]))
         Sample.empty_world (Outage.request_of_alice JUndefined))
  = fst (Relay.handler (with_store (Sample.relay_env []) (Sample.store_with_faults []))
           Sample.empty_world (Outage.request_of_alice JUndefined)).
Proof.
  apply (@relay_stream_outcome_ignores_store (Sample.relay_env [])
           (Sample.store_with_faults [0]) (Sample.store_with_faults [])
           Sample.empty_world (Outage.request_of_alice JUndefined)
           (Sample.chat_body None JUndefined (JStr (js "alice")) JUndefined));
    reflexivity.
Defined.

(** ** The shape of a title *)

(** X2.  A title is made of one to three words joined by single spaces,
    where a word has more than two code units, none of them whitespace or
    one of the markup characters that the heuristic strips: a title has no
    leading, trailing or repeated space, and no tab or line break. *)
Theorem generateChatTitle_is_joined_words (content : jsstring) :
  exists ws,
    generateChatTitle content = join_space ws
    /\ 1 <= length ws <= 3
    /\ forallb title_word ws = true.
Proof.
  rewrite generateChatTitle_title_spec. unfold title_spec.
  pose proof (surviving_words_are_title_words content) as W.
  destruct (surviving_words content) as [|w ws] eqn:S.
  - exists [js "New"; js "chat"]. split; [reflexivity|]. split; [cbn; lia | reflexivity].
  - assert (W3 : forallb title_word (firstn 3 (w :: ws)) = true)
      by (apply forallb_firstn; exact W).
    assert (L3 : length (firstn 3 (w :: ws)) <= 3) by apply firstn_le_length.
    assert (N3 : firstn 3 (w :: ws) <> []) by discriminate.
    destruct (20 <? length (join_space (firstn 3 (w :: ws)))).
    + destruct (@truncated_join (js "...") (firstn 3 (w :: ws)) 17 eq_refl N3 W3)
        as [ws' [N' [L' [W' J']]]].
      exists ws'. split; [exact J'|]. split; [|exact W'].
      destruct ws'; [congruence | cbn [length] in *; lia].
    + exists (firstn 3 (w :: ws)). split; [reflexivity|]. split; [|exact W3].
      cbn [firstn length] in *. lia.
Qed.

(** ** The title heuristic against the specification *)

(** C5.  [generateChatTitle] computes, for every input string, the title the
    specification describes: the markup characters [# * ` _ ~ [ ] ( )]
    removed, the whitespace separated words of more than two code units
    kept, at most the first three of them joined by single spaces, a result
    longer than 20 code units cut to its first 17 followed by ["..."], and
    ["New chat"] when no word survives.  None of the nine markup characters
    is ever left in a title, and each of them is removed even inside a word.
    The three worked examples of the specification hold: the markdown
    heading, the empty and the all-short-word input, and a joined title of
    25 code units. *)
Theorem generateChatTitle_meets_spec :
  (forall content, generateChatTitle content = title_spec content)
  /\ (forall content c,
        In c (generateChatTitle content) -> ~ In c markup_characters)
  /\ generateChatTitle (js "#a*b`c_d~e[f]g(h)i") = js "abcdefghi"
  /\ generateChatTitle (js "## Hello World from AI!!") = js "Hello World from"
  /\ generateChatTitle (js "") = js "New chat"
  /\ (forall content,
        Forall (fun w => length w <= 2) (ws_words (without_markup content)) ->
        generateChatTitle content = js "New chat")
  /\ (forall content joined,
        joined = join_space (firstn 3 (surviving_words content)) ->
        length joined = 25 ->
        generateChatTitle content = firstn 17 joined ++ js "..."
        /\ length (generateChatTitle content) = 20).
Proof.
  split; [exact generateChatTitle_title_spec|]. split.
  { intros content c Hin Hm.
    pose proof (generateChatTitle_units content) as U.
    rewrite forallb_forall in U. specialize (U c Hin).
    unfold title_unit in U. apply andb_true_iff in U. destruct U as [U _].
    apply negb_true_iff in U.
    assert (X : is_markup c = true).
    { unfold is_markup. apply existsb_exists. exists c.
      split; [exact Hm | apply N.eqb_refl]. }
    congruence. }
  split; [reflexivity|]. split; [reflexivity|]. split; [reflexivity|]. split.
  - intros content H. rewrite generateChatTitle_title_spec.
    unfold title_spec, surviving_words.
    replace (filter _ (ws_words _)) with (@nil jsstring); [reflexivity|].
    symmetry. induction H as [|w ws Hw _ IH]; [reflexivity|].
    simpl. apply Nat.leb_le in Hw. rewrite Hw. exact IH.
  - intros content joined -> L. rewrite generateChatTitle_title_spec.
    unfold title_spec.
    destruct (surviving_words content) as [|w ws] eqn:S; [discriminate L|].
    rewrite L. cbn [Nat.ltb Nat.leb]. split; [reflexivity|].
    rewrite length_app, firstn_length_le by lia. reflexivity.
Qed.

Lemma generateChatTitle_meets_spec_witness :
  generateChatTitle (js "a bb ## c") = js "New chat"
  /\ generateChatTitle (js "*abcdefghij* klmnopqr (stuvw) xyz")
     = js "abcdefghij klmnop..."
  /\ ~ In 42%N (generateChatTitle (js "*abcdefghij* klmnopqr (stuvw) xyz")).
Proof.
  split; [|split].
  - apply (proj1 (proj2 (proj2 (proj2 (proj2 (proj2 generateChatTitle_meets_spec)))))).
    vm_compute. repeat constructor.
  - apply (proj2 (proj2 (proj2 (proj2 (proj2 (proj2 generateChatTitle_meets_spec)))))
             (js "*abcdefghij* klmnopqr (stuvw) xyz") _ eq_refl).
    vm_compute. reflexivity.
  - intros H.
    apply (proj1 (proj2 generateChatTitle_meets_spec)
             (js "*abcdefghij* klmnopqr (stuvw) xyz") 42%N H).
    vm_compute. tauto.
Defined.
